(** * Multi-Agent-Law-Framework: the debate orchestration core

    A shallow embedding of [backend/agents.py], [backend/orchestrator.py]
    and the simulate/audit routes of [backend/server.py], followed by the
    properties of the design specification that concern them.

    Conventions of the embedding.
    - A Python [str] is a sequence of Unicode code points: [pystr], a list
      of [N].  Literals of the source are written [txt "..."].
    - A value produced by [json.loads] (or a dict/list literal of the
      source that flows to the same places) is a [pyval].
    - Keyword-argument dicts and stored case records, whose keys are picked
      by literal name in the source, are finite maps from names to values.
    - Code that calls the language model or touches the case store runs in
      a state-and-exception monad [M] over a [world]. *)

From Stdlib Require Import ZArith NArith List Ascii String Bool Lia DecimalString.
From stdpp Require Import base option list gmap strings.

Local Open Scope Z_scope.
Set Warnings "-register-all".

(** ** Python text *)

Module PyStr.

Abbreviation pystr := (list N).

(** A source literal as a sequence of code points. *)
Definition txt (s : string) : pystr :=
  List.map N_of_ascii (list_ascii_of_string s).

Definition quote : N := 34%N.
Definition backslash : N := 92%N.

(** [x == y] on two [str]. *)
Fixpoint str_eqb (a b : pystr) : bool :=
  match a, b with
  | [], [] => true
  | x :: a', y :: b' => N.eqb x y && str_eqb a' b'
  | _, _ => false
  end.

(** [s.startswith(p)]. *)
Fixpoint startswith (p s : pystr) : bool :=
  match p, s with
  | [], _ => true
  | x :: p', y :: s' => N.eqb x y && startswith p' s'
  | _ :: _, [] => false
  end.

(** [needle in hay] for two [str]: [needle] occurs at some offset. *)
Fixpoint contains (needle hay : pystr) : bool :=
  startswith needle hay ||
  match hay with
  | [] => false
  | _ :: hay' => contains needle hay'
  end.

(** [str.lower()] code point by code point.  ASCII and Latin-1 capitals
    move down by 32; U+00D7 is the multiplication sign.  The case table of
    the code points from 256 on is not embedded: they are left as they
    are. *)
Definition lower_cp (c : N) : N :=
  if ((65 <=? c) && (c <=? 90))%N then (c + 32)%N
  else if ((192 <=? c) && (c <=? 222) && negb (c =? 215))%N then (c + 32)%N
  else c.

Definition lower (s : pystr) : pystr := List.map lower_cp s.

(** [str.isspace] on one code point. *)
Definition isspace (c : N) : bool :=
  (((9 <=? c) && (c <=? 13)) || ((28 <=? c) && (c <=? 32))
   || (c =? 133) || (c =? 160) || (c =? 5760)
   || ((8192 <=? c) && (c <=? 8202))
   || (c =? 8232) || (c =? 8233) || (c =? 8239) || (c =? 8287)
   || (c =? 12288))%N.

Fixpoint lstrip (s : pystr) : pystr :=
  match s with
  | c :: s' => if isspace c then lstrip s' else s
  | [] => []
  end.

(** [s.strip()]. *)
Definition strip (s : pystr) : pystr := rev (lstrip (rev (lstrip s))).

(** [s[:n]] for a literal [n >= 0]. *)
Definition prefix_slice (n : nat) (s : pystr) : pystr := firstn n s.

(** [sep.join(parts)]. *)
Fixpoint join (sep : pystr) (parts : list pystr) : pystr :=
  match parts with
  | [] => []
  | [p] => p
  | p :: rest => p ++ sep ++ join sep rest
  end.

(** [s.replace(a, b)] for single characters [a], [b]. *)
Definition replace_char (a b : N) (s : pystr) : pystr :=
  List.map (fun c => if N.eqb c a then b else c) s.

(** [str(n)] for an [int]. *)
Definition str_of_int (z : Z) : pystr :=
  txt (NilZero.string_of_int (Z.to_int z)).

(** A literal written with ['] where the text has a double quote. *)
Definition dq (s : string) : pystr := replace_char 39%N quote (txt s).

End PyStr.
Import PyStr.

(** ** Python values *)

(** What [json.loads] can return.  A [float] keeps the text of its literal
    (rounding to binary64 is not modelled); a [dict] keeps its items in
    insertion order. *)
Inductive pyval : Type :=
| PNone
| PBool (b : bool)
| PInt (z : Z)
| PFloat (literal : pystr)
| PStr (s : pystr)
| PList (items : list pyval)
| PDict (items : list (pystr * pyval)).

Module PyDict.

(** [d.get(k)], [None] when the key is absent. *)
Fixpoint get (k : pystr) (d : list (pystr * pyval)) : option pyval :=
  match d with
  | [] => None
  | (k', v) :: d' => if str_eqb k k' then Some v else get k d'
  end.

(** [d[k] = v]: an existing key keeps its position and takes the new
    value; a new key goes to the end. *)
Fixpoint set (k : pystr) (v : pyval) (d : list (pystr * pyval))
  : list (pystr * pyval) :=
  match d with
  | [] => [(k, v)]
  | (k', v') :: d' =>
      if str_eqb k k' then (k', v) :: d' else (k', v') :: set k v d'
  end.

(** [k in d]. *)
Definition mem (k : pystr) (d : list (pystr * pyval)) : bool :=
  match get k d with Some _ => true | None => false end.

End PyDict.

(** [k in v] for a [str] [k] and any value [v]: key membership in a dict,
    element membership in a list, substring test in a str; [None] stands
    for the [TypeError] raised on the values that are not containers. *)
Definition py_in (k : pystr) (v : pyval) : option bool :=
  match v with
  | PDict d => Some (PyDict.mem k d)
  | PList l =>
      Some (existsb (fun x => match x with PStr s => str_eqb k s | _ => false end) l)
  | PStr s => Some (contains k s)
  | PNone | PBool _ | PInt _ | PFloat _ => None
  end.

Definition is_dict (v : pyval) : bool :=
  match v with PDict _ => true | _ => false end.

(** ** [re.search] with the pattern of [render_verdict] and [audit_case] *)

Module Regex.
Local Open Scope N_scope.

Definition lbrace : N := 123.
Definition rbrace : N := 125.

(** The pattern is: an opening brace; a run of characters other than
    braces; any number of groups made of an opening brace, a run without
    braces, a closing brace and a run without braces; a closing brace.
    [brace_body] reads what follows the opening brace, up to and including
    the closing one; [inner] tells that the scan is inside a group.  Every
    run is followed by a brace in the pattern, so it takes all the
    characters up to the next brace and the engine has nothing to
    backtrack to. *)
Fixpoint brace_body (inner : bool) (s : pystr) : option pystr :=
  match s with
  | [] => None
  | c :: r =>
      if c =? rbrace then
        if inner then option_map (cons c) (brace_body false r)
        else Some [c]
      else if c =? lbrace then
        if inner then None
        else option_map (cons c) (brace_body true r)
      else option_map (cons c) (brace_body inner r)
  end.

(** [re.match] of the pattern at the start of [s]. *)
Definition match_here (s : pystr) : option pystr :=
  match s with
  | c :: r => if c =? lbrace then option_map (cons c) (brace_body false r) else None
  | [] => None
  end.

(** [re.search(pattern, s, re.DOTALL)]: the match at the leftmost position
    that has one; the result is [json_match.group()]. *)
Fixpoint search (s : pystr) : option pystr :=
  match match_here s with
  | Some m => Some m
  | None => match s with [] => None | _ :: r => search r end
  end.

End Regex.

(** ** [json.loads]

    The default decoder (strict mode, no hooks) as CPython's scanner runs
    it.  The interpreter's limits (recursion depth, digits of an integer
    literal) are not part of the model. *)

Module Json.
Local Open Scope N_scope.

Definition is_ws (c : N) : bool :=
  (c =? 32) || (c =? 9) || (c =? 10) || (c =? 13).

Fixpoint skip_ws (s : pystr) : pystr :=
  match s with
  | c :: r => if is_ws c then skip_ws r else s
  | [] => []
  end.

Definition is_digit (c : N) : bool := (48 <=? c) && (c <=? 57).

Definition hex_digit (c : N) : option N :=
  if is_digit c then Some (c - 48)
  else if (97 <=? c) && (c <=? 102) then Some (c - 87)
  else if (65 <=? c) && (c <=? 70) then Some (c - 55)
  else None.

Definition hex4 (a b c d : N) : option N :=
  match hex_digit a, hex_digit b, hex_digit c, hex_digit d with
  | Some x, Some y, Some z, Some w => Some (((x * 16 + y) * 16 + z) * 16 + w)
  | _, _, _, _ => None
  end.

Definition is_high_surrogate (c : N) : bool := (55296 <=? c) && (c <=? 56319).
Definition is_low_surrogate (c : N) : bool := (56320 <=? c) && (c <=? 57343).
Definition join_surrogates (hi lo : N) : N :=
  65536 + (hi - 55296) * 1024 + (lo - 56320).

(** The character an escape letter stands for. *)
Definition simple_escape (e : N) : option N :=
  if e =? quote then Some quote
  else if e =? backslash then Some backslash
  else if e =? 47 then Some 47
  else if e =? 98 then Some 8
  else if e =? 102 then Some 12
  else if e =? 110 then Some 10
  else if e =? 114 then Some 13
  else if e =? 116 then Some 9
  else None.

Definition push {A} (c : N) (r : option (pystr * A)) : option (pystr * A) :=
  match r with
  | Some (s, rest) => Some (c :: s, rest)
  | None => None
  end.

(** [scanstring], from the character after the opening quote: the decoded
    string and what follows the closing quote. *)
Fixpoint scanstring (s : pystr) : option (pystr * pystr) :=
  match s with
  | [] => None
  | c :: r =>
      if c =? quote then Some ([], r)
      else if c =? backslash then
        match r with
        | [] => None
        | e :: r1 =>
            if e =? 117 then
              match r1 with
              | h1 :: h2 :: h3 :: h4 :: r2 =>
                  match hex4 h1 h2 h3 h4 with
                  | None => None
                  | Some cp =>
                      if is_high_surrogate cp then
                        match r2 with
                        | b :: u :: g1 :: g2 :: g3 :: g4 :: r3 =>
                            if (b =? backslash) && (u =? 117) then
                              match hex4 g1 g2 g3 g4 with
                              | None => None
                              | Some cp2 =>
                                  if is_low_surrogate cp2
                                  then push (join_surrogates cp cp2) (scanstring r3)
                                  else push cp (scanstring r2)
                              end
                            else push cp (scanstring r2)
                        | _ => push cp (scanstring r2)
                        end
                      else push cp (scanstring r2)
                  end
              | _ => None
              end
            else
              match simple_escape e with
              | Some x => push x (scanstring r1)
              | None => None
              end
        end
      else if c <=? 31 then None
      else push c (scanstring r)
  end.

(** The longest run of digits at the head of [s], and the rest. *)
Fixpoint span_digits (s : pystr) : pystr * pystr :=
  match s with
  | c :: r =>
      if is_digit c then let '(ds, rest) := span_digits r in (c :: ds, rest)
      else ([], s)
  | [] => ([], [])
  end.

Definition int_of_digits (ds : pystr) : Z :=
  fold_left (fun acc c => (acc * 10 + Z.of_N (c - 48))%Z) ds 0%Z.

(** The integer part of a number literal: a zero, or a nonzero digit and
    the digits after it. *)
Definition match_int (s : pystr) : option (pystr * pystr) :=
  match s with
  | c :: r =>
      if c =? 48 then Some ([c], r)
      else if is_digit c then let '(ds, rest) := span_digits r in Some (c :: ds, rest)
      else None
  | [] => None
  end.

(** A fraction: a dot and at least one digit; nothing is read otherwise. *)
Definition match_frac (s : pystr) : pystr * pystr :=
  match s with
  | c :: r =>
      if c =? 46 then
        match span_digits r with
        | ([], _) => ([], s)
        | (ds, rest) => (c :: ds, rest)
        end
      else ([], s)
  | [] => ([], [])
  end.

(** An exponent: [e] or [E], an optional sign and at least one digit;
    nothing is read otherwise. *)
Definition match_exp (s : pystr) : pystr * pystr :=
  match s with
  | c :: r =>
      if (c =? 101) || (c =? 69) then
        let '(sign, r1) :=
          match r with
          | g :: r' => if (g =? 45) || (g =? 43) then ([g], r') else ([], r)
          | [] => ([], r)
          end in
        match span_digits r1 with
        | ([], _) => ([], s)
        | (ds, rest) => (c :: sign ++ ds, rest)
        end
      else ([], s)
  | [] => ([], [])
  end.

(** A number at the head of [s]: an [int] when it has neither fraction nor
    exponent, a [float] otherwise. *)
Definition match_number (s : pystr) : option (pyval * pystr) :=
  let '(neg, s1) :=
    match s with
    | c :: r => if c =? 45 then (true, r) else (false, s)
    | [] => (false, s)
    end in
  match match_int s1 with
  | None => None
  | Some (ds, r1) =>
      let '(frac, r2) := match_frac r1 in
      let '(ex, r3) := match_exp r2 in
      match frac, ex with
      | [], [] =>
          Some (PInt (if neg then (- int_of_digits ds)%Z else int_of_digits ds), r3)
      | _, _ =>
          Some (PFloat ((if neg then [45] else []) ++ ds ++ frac ++ ex), r3)
      end
  end.

(** [s] without the literal [p] at its head, when it starts with it. *)
Definition after (p : string) (s : pystr) : option pystr :=
  if startswith (txt p) s then Some (skipn (String.length p) s) else None.

(** The constants: [null], [true], [false], [NaN], [Infinity] and
    [-Infinity]. *)
Definition match_constant (s : pystr) : option (pyval * pystr) :=
  match after "null" s with Some r => Some (PNone, r) | None =>
  match after "true" s with Some r => Some (PBool true, r) | None =>
  match after "false" s with Some r => Some (PBool false, r) | None =>
  match after "NaN" s with Some r => Some (PFloat (txt "NaN"), r) | None =>
  match after "Infinity" s with Some r => Some (PFloat (txt "Infinity"), r) | None =>
  match after "-Infinity" s with Some r => Some (PFloat (txt "-Infinity"), r) | None =>
  None end end end end end end.

(** [scan_once]: one JSON term at the head of [s] and the rest of the
    text.  [parse_members] and [parse_items] read the inside of an object
    and of an array once it is known not to be empty.  Every call on a
    nested term has read at least one character, so a [fuel] above the
    length of the text is never used up. *)
Fixpoint scan_once (fuel : nat) (s : pystr) : option (pyval * pystr) :=
  match fuel with
  | O => None
  | S fuel' =>
      match s with
      | [] => None
      | c :: r =>
          if c =? quote then
            match scanstring r with
            | Some (str, rest) => Some (PStr str, rest)
            | None => None
            end
          else if c =? 123 then
            match skip_ws r with
            | c1 :: r1 =>
                if c1 =? 125 then Some (PDict [], r1)
                else parse_members fuel' (c1 :: r1) []
            | [] => None
            end
          else if c =? 91 then
            match skip_ws r with
            | c1 :: r1 =>
                if c1 =? 93 then Some (PList [], r1)
                else parse_items fuel' (c1 :: r1) []
            | [] => None
            end
          else
            match match_constant s with
            | Some res => Some res
            | None => match_number s
            end
      end
  end
with parse_members (fuel : nat) (s : pystr) (acc : list (pystr * pyval))
  : option (pyval * pystr) :=
  match fuel with
  | O => None
  | S fuel' =>
      match s with
      | [] => None
      | c :: r =>
          if c =? quote then
            match scanstring r with
            | None => None
            | Some (key, r1) =>
                match skip_ws r1 with
                | c2 :: r2 =>
                    if c2 =? 58 then
                      match scan_once fuel' (skip_ws r2) with
                      | None => None
                      | Some (val, r3) =>
                          let acc' := PyDict.set key val acc in
                          match skip_ws r3 with
                          | c4 :: r4 =>
                              if c4 =? 125 then Some (PDict acc', r4)
                              else if c4 =? 44
                              then parse_members fuel' (skip_ws r4) acc'
                              else None
                          | [] => None
                          end
                      end
                    else None
                | [] => None
                end
            end
          else None
      end
  end
with parse_items (fuel : nat) (s : pystr) (acc : list pyval)
  : option (pyval * pystr) :=
  match fuel with
  | O => None
  | S fuel' =>
      match scan_once fuel' s with
      | None => None
      | Some (val, r1) =>
          let acc' := acc ++ [val] in
          match skip_ws r1 with
          | c2 :: r2 =>
              if c2 =? 93 then Some (PList acc', r2)
              else if c2 =? 44 then parse_items fuel' (skip_ws r2) acc'
              else None
          | [] => None
          end
      end
  end.

(** [json.loads(s)]: [None] stands for the exception raised on a text that
    is not one JSON term between optional white space. *)
Definition loads (s : pystr) : option pyval :=
  if startswith [65279] s then None
  else
    match scan_once (S (S (List.length s))) (skip_ws s) with
    | Some (v, rest) =>
        match skip_ws rest with
        | [] => Some v
        | _ :: _ => None
        end
    | None => None
    end.

End Json.

(** ** Exceptions, the world and the monad of effects *)

(** The exceptions that the modelled code raises or handles; all of them
    derive from Python's [Exception].  The [detail] of an [HTTPException]
    is either a literal or the f-string of a literal and [str(e)] for a
    caught exception [e], which is kept as the exception itself. *)
Inductive exn : Type :=
| KeyError (key : pystr)
| TypeError
| AttributeError
| FileNotFoundError
| ValidationError
| HTTPException (status_code : Z) (detail : http_detail)
with http_detail : Type :=
| Detail (s : pystr)
| DetailWith (s : pystr) (cause : exn).

(** One request to [chat.completions.create]. *)
Record request : Type := {
  system_content : pystr;
  user_content : pystr;
  model : pystr;
  temperature : pystr;
  max_tokens : Z
}.

(** What the [try] block of [generate_response] observes: the text
    [response.choices[0].message.content], or an exception [e] raised by
    the call or by reading the response, given by [str(e)]. *)
Inductive completion : Type :=
| Content (text : pystr)
| Failure (message : pystr).

(** A keyword-argument dict handed to an agent. *)
Abbreviation context := (gmap string pyval).

(** A stored case: the JSON object of [cases/<case_id>.json]. *)
Abbreviation case_record := (gmap string pyval).

(** A call of the language model as it is logged: the agent, the context
    it was given and the request it sent. *)
Record model_call : Type := {
  caller : pystr;
  given : context;
  sent : request
}.

Record world : Type := {
  cases : gmap pystr case_record;
  calls : list model_call
}.

Inductive result (A : Type) : Type :=
| Ok (a : A)
| Raise (e : exn).
Arguments Ok {A} a.
Arguments Raise {A} e.

Definition M (A : Type) : Type := world -> result A * world.

Definition ret {A} (a : A) : M A := fun w => (Ok a, w).

Definition raise {A} (e : exn) : M A := fun w => (Raise e, w).

Definition bind {A B} (m : M A) (k : A -> M B) : M B :=
  fun w =>
    match m w with
    | (Ok a, w') => k a w'
    | (Raise e, w') => (Raise e, w')
    end.

(** [try: body / except Exception as e: handler(e)]. *)
Definition try_except {A} (body : M A) (handler : exn -> M A) : M A :=
  fun w =>
    match body w with
    | (Ok a, w') => (Ok a, w')
    | (Raise e, w') => handler e w'
    end.

Notation "'let*' x ':=' c 'in' k" := (bind c (fun x => k))
  (at level 10, x name, c at level 100, k at level 200).

(** [for x in xs: s = body(s, x)]. *)
Fixpoint for_each {A S} (xs : list A) (body : S -> A -> M S) (s : S) : M S :=
  match xs with
  | [] => ret s
  | x :: xs' => let* s' := body s x in for_each xs' body s'
  end.

(** [range(a, b)]. *)
Definition py_range (a b : Z) : list Z :=
  List.map (fun i => a + Z.of_nat i) (seq 0 (Z.to_nat (b - a))).

(** ** agents.py *)

Module Agents.

(** A prompt template as [str.format] reads it: literal text and
    replacement fields that name a keyword argument.  The prompt files are
    not among the sources; fields with an index, an attribute, a
    conversion or a format specification are not modelled. *)
Inductive segment : Type :=
| Text (s : pystr)
| Field (name : string).

Abbreviation template := (list segment).

Definition placeholders (t : template) : list string :=
  flat_map (fun seg => match seg with Field n => [n] | Text _ => [] end) t.

(** [LegalAgent]: [agent_type] and the template read by [_load_prompt]. *)
Record agent : Type := {
  agent_type : pystr;
  prompt_template : template
}.

Definition bias_keywords : list (pystr * list pystr) :=
  [ (txt "gender",
     List.map txt ["he"; "she"; "his"; "her"; "man"; "woman"; "male"; "female"]);
    (txt "regional",
     List.map txt ["north"; "south"; "rural"; "urban"; "village"]);
    (txt "religious",
     List.map txt ["hindu"; "muslim"; "christian"; "sikh"]);
    (txt "caste",
     List.map txt ["caste"; "scheduled"; "tribe"; "backward"]) ].

(** [x in xs] for a list of [str]. *)
Definition str_mem (x : pystr) (xs : list pystr) : bool :=
  existsb (str_eqb x) xs.

(** The body of the inner loop of [_simple_bias_detection], on the pair
    [(found_biases, bias_types)]. *)
Definition scan_keyword (text_lower bias_type : pystr)
    (st : list pystr * list pystr) (keyword : pystr) : list pystr * list pystr :=
  let '(found_biases, bias_types) := st in
  if contains keyword text_lower then
    (if str_mem keyword found_biases then found_biases
     else found_biases ++ [keyword],
     if str_mem bias_type bias_types then bias_types
     else bias_types ++ [bias_type])
  else st.

(** The two nested loops over [bias_keywords.items()]. *)
Definition scan_biases (text_lower : pystr) : list pystr * list pystr :=
  fold_left
    (fun st '(bias_type, keywords) =>
       fold_left (scan_keyword text_lower bias_type) keywords st)
    bias_keywords ([], []).

Definition py_len {A} (l : list A) : Z := Z.of_nat (List.length l).

Definition fairness_of (found_biases : list pystr) : Z :=
  Z.max 50 (100 - py_len found_biases * 5).

Definition _simple_bias_detection (text : pystr) : pyval :=
  let text_lower := lower text in
  let '(found_biases, bias_types) := scan_biases text_lower in
  let fairness_score := fairness_of found_biases in
  PDict
    [ (txt "fairness_score", PInt fairness_score);
      (txt "biased_terms", PList (List.map PStr (firstn 10 found_biases)));
      (txt "bias_types", PList (List.map PStr bias_types));
      (txt "recommendations",
       PList [ PStr (txt "Use gender-neutral language where possible");
               PStr (txt "Avoid stereotypical assumptions");
               PStr (txt "Focus on facts and legal precedents") ]);
      (txt "summary",
       PStr (txt "Found " ++ str_of_int (py_len found_biases)
             ++ txt " potentially biased terms. Fairness score: "
             ++ str_of_int fairness_score ++ txt "/100")) ].

(** The [try] block shared by [render_verdict] and [audit_case]: parse the
    regex match when there is one and the whole text otherwise, then test
    the required keys with [in], left to right.  [None] when the block
    is left through [except: pass] or falls through its [if]. *)
Definition parse_json_from_response (response_text : pystr) : option pyval :=
  match Regex.search response_text with
  | Some json_match => Json.loads json_match
  | None => Json.loads response_text
  end.

Fixpoint has_keys (keys : list pystr) (v : pyval) : bool :=
  match keys with
  | [] => true
  | k :: keys' =>
      match py_in k v with
      | Some true => has_keys keys' v
      | Some false | None => false
      end
  end.

Definition try_structured (keys : list pystr) (response_text : pystr)
  : option pyval :=
  match parse_json_from_response response_text with
  | Some v => if has_keys keys v then Some v else None
  | None => None
  end.

(** The fallback of [render_verdict]. *)
Definition fallback_verdict (response_text : pystr) : pyval :=
  let verdict_type :=
    if contains (txt "plaintiff") (lower response_text)
    then txt "FAVOR_PLAINTIFF" else txt "FAVOR_DEFENDANT" in
  PDict
    [ (txt "verdict", PStr verdict_type);
      (txt "confidence", PInt 75);
      (txt "reasoning", PList [PStr (prefix_slice 200 response_text)]);
      (txt "supporting_evidence", PList [PStr (txt "Evidence from case facts")]) ].

(** [render_verdict] after [generate_response] has returned. *)
Definition verdict_from_text (response_text : pystr) : pyval :=
  match try_structured [txt "verdict"; txt "confidence"] response_text with
  | Some verdict => verdict
  | None => fallback_verdict response_text
  end.

Section WithModel.

(** [str(v)] for the values that are neither text nor plain scalars
    (floats, lists, dicts): Python's own formatting, taken as given. *)
Variable py_repr : pyval -> pystr.

(** The language model behind the Groq client: its answer to the [n]-th
    request of a run. *)
Variable groq : nat -> request -> completion.

(** [str(v)], which is what an empty format specification gives. *)
Definition py_str (v : pyval) : pystr :=
  match v with
  | PStr s => s
  | PInt z => str_of_int z
  | PNone => txt "None"
  | PBool true => txt "True"
  | PBool false => txt "False"
  | PFloat _ | PList _ | PDict _ => py_repr v
  end.

(** [template.format] on the keyword arguments of [ctx]: the first field
    without a keyword argument raises [KeyError]. *)
Fixpoint format (t : template) (ctx : context) : result pystr :=
  match t with
  | [] => Ok []
  | Text s :: t' =>
      match format t' ctx with
      | Ok rest => Ok (s ++ rest)
      | Raise e => Raise e
      end
  | Field name :: t' =>
      match ctx !! name with
      | None => Raise (KeyError (txt name))
      | Some v =>
          match format t' ctx with
          | Ok rest => Ok (py_str v ++ rest)
          | Raise e => Raise e
          end
      end
  end.

Definition lift {A} (r : result A) : M A := fun w => (r, w).

(** The keyword arguments of [chat.completions.create] for a prompt. *)
Definition request_for (self : agent) (prompt : pystr) : request :=
  {| system_content :=
       txt "You are a " ++ replace_char 95%N 32%N (agent_type self)
       ++ txt " in an Indian courtroom.";
     user_content := prompt;
     model := txt "llama-3.3-70b-versatile";
     temperature := txt "0.7";
     max_tokens := 800 |}.

(** The world once a call of the model is logged. *)
Definition logged (self : agent) (ctx : context) (req : request) (w : world)
  : world :=
  {| cases := cases w;
     calls := calls w ++ [ {| caller := agent_type self; given := ctx; sent := req |} ] |}.

(** [await self.client.chat.completions.create(...)] followed by the
    reading of the response, as far as the [try] block sees them. *)
Definition chat_completions_create (self : agent) (ctx : context)
    (req : request) : M completion :=
  fun w => (Ok (groq (List.length (calls w)) req), logged self ctx req w).

Definition generate_response (self : agent) (ctx : context) : M pystr :=
  let* prompt := lift (format (prompt_template self) ctx) in
  let* response := chat_completions_create self ctx (request_for self prompt) in
  match response with
  | Content text => ret (strip text)
  | Failure message => ret (txt "Error generating response: " ++ message)
  end.

Definition render_verdict (self : agent) (ctx : context) : M pyval :=
  let* response_text := generate_response self ctx in
  ret (verdict_from_text response_text).

(** [context.get(key, '')]. *)
Definition get_or_empty (ctx : context) (key : string) : pyval :=
  default (PStr []) (ctx !! key).

Definition audit_case (self : agent) (ctx : context) : M pyval :=
  let* response_text := generate_response self ctx in
  match try_structured [txt "fairness_score"] response_text with
  | Some audit_result => ret audit_result
  | None =>
      let case_text :=
        py_str (get_or_empty ctx "facts") ++ txt " "
        ++ py_str (get_or_empty ctx "verdict") ++ txt " "
        ++ py_str (get_or_empty ctx "reasoning") in
      ret (_simple_bias_detection case_text)
  end.

End WithModel.

End Agents.

(** ** orchestrator.py *)

Module Orchestrator.
Import Agents.

(** One entry of [debate_transcript]: the dict literal with the keys
    ['round'], ['speaker'] and ['argument']. *)
Record transcript_entry : Type := {
  round : Z;
  speaker : pystr;
  argument : pystr
}.

(** The dict returned by [run_simulation]. *)
Record simulation_result : Type := {
  debate_transcript : list transcript_entry;
  verdict : pyval;
  rounds_completed : Z
}.

Record DebateOrchestrator : Type := {
  plaintiff_lawyer : agent;
  defendant_lawyer : agent;
  judge : agent
}.

(** The comprehension [[t['argument'] for t in debate_transcript if
    t['speaker'] == name]]. *)
Definition arguments_of (name : pystr) (debate_transcript : list transcript_entry)
  : list pystr :=
  List.map argument
    (List.filter (fun t => str_eqb (speaker t) name) debate_transcript).

Section WithModel.

Variable py_repr : pyval -> pystr.
Variable groq : nat -> request -> completion.

(** The body of the loop over the rounds. *)
Definition debate_round (self : DebateOrchestrator) (facts issues holding : pyval)
    (debate_transcript : list transcript_entry) (round_num : Z)
  : M (list transcript_entry) :=
  let plaintiff_context : context :=
    {[ "facts" := facts; "issues" := issues; "holding" := holding ]} in
  let* plaintiff_arg :=
    generate_response py_repr groq (plaintiff_lawyer self) plaintiff_context in
  let debate_transcript :=
    debate_transcript
    ++ [ {| round := round_num; speaker := txt "Plaintiff Lawyer";
            argument := plaintiff_arg |} ] in
  let defendant_context : context :=
    {[ "facts" := facts; "issues" := issues; "holding" := holding ]} in
  let* defendant_arg :=
    generate_response py_repr groq (defendant_lawyer self) defendant_context in
  ret (debate_transcript
       ++ [ {| round := round_num; speaker := txt "Defendant Lawyer";
               argument := defendant_arg |} ]).

Definition run_simulation (self : DebateOrchestrator) (case_data : case_record)
    (rounds : Z) : M simulation_result :=
  let facts := get_or_empty case_data "facts" in
  let issues := get_or_empty case_data "issues" in
  let holding := get_or_empty case_data "holding" in
  let* debate_transcript :=
    for_each (py_range 1 (rounds + 1))
      (debate_round self facts issues holding) [] in
  let plaintiff_arguments :=
    join [10%N; 10%N] (arguments_of (txt "Plaintiff Lawyer") debate_transcript) in
  let defendant_arguments :=
    join [10%N; 10%N] (arguments_of (txt "Defendant Lawyer") debate_transcript) in
  let judge_context : context :=
    {[ "facts" := facts; "issues" := issues; "holding" := holding;
       "plaintiff_arguments" := PStr plaintiff_arguments;
       "defendant_arguments" := PStr defendant_arguments ]} in
  let* verdict := render_verdict py_repr groq (judge self) judge_context in
  ret {| debate_transcript := debate_transcript;
         verdict := verdict;
         rounds_completed := rounds |}.

End WithModel.

End Orchestrator.

(** ** auditor.py *)

Module Auditor.
Import Agents.

(** [sep.join(v)] for any value [v]: a list of [str], the characters of a
    [str] or the keys of a dict; [TypeError] otherwise. *)
Definition py_join (sep : pystr) (v : pyval) : result pystr :=
  match v with
  | PList l =>
      match
        fold_right
          (fun x acc =>
             match x, acc with
             | PStr s, Some ss => Some (s :: ss)
             | _, _ => None
             end) (Some []) l
      with
      | Some ss => Ok (join sep ss)
      | None => Raise TypeError
      end
  | PStr s => Ok (join sep (List.map (fun c => [c]) s))
  | PDict d => Ok (join sep (List.map fst d))
  | PNone | PBool _ | PInt _ | PFloat _ => Raise TypeError
  end.

(** [v.get(key, dflt)]: only a dict has the method. *)
Definition py_get (v : pyval) (key : pystr) (dflt : pyval) : result pyval :=
  match v with
  | PDict d => Ok (default dflt (PyDict.get key d))
  | _ => Raise AttributeError
  end.

Section WithModel.

Variable py_repr : pyval -> pystr.
Variable groq : nat -> request -> completion.

(** [BiasAuditor.audit]; [self] is the [Auditor] agent it holds. *)
Definition audit (self : agent) (case_data : case_record) (verdict : pyval)
  : M pyval :=
  let facts := get_or_empty case_data "facts" in
  let* verdict_text := lift (py_get verdict (txt "verdict") (PStr [])) in
  let* reasoning_items := lift (py_get verdict (txt "reasoning") (PList [])) in
  let* reasoning := lift (py_join (txt " ") reasoning_items) in
  let audit_context : context :=
    {[ "facts" := facts; "verdict" := verdict_text;
       "reasoning" := PStr reasoning ]} in
  audit_case py_repr groq self audit_context.

End WithModel.

End Auditor.

(** ** data_loader.py and server.py: the case store and the two routes *)

Module Server.
Import Agents.

(** [load_case]. *)
Definition load_case (case_id : pystr) : M case_record :=
  fun w =>
    match cases w !! case_id with
    | Some case_data => (Ok case_data, w)
    | None => (Raise FileNotFoundError, w)
    end.

(** [update_case]: [case_data.update(updates)], then the file is written
    again. *)
Definition update_case (case_id : pystr) (updates : case_record) : M unit :=
  let* case_data := load_case case_id in
  fun w =>
    (Ok tt,
     {| cases := <[case_id := updates ∪ case_data]> (cases w);
        calls := calls w |}).

Definition py_of_entry (t : Orchestrator.transcript_entry) : pyval :=
  PDict [ (txt "round", PInt (Orchestrator.round t));
          (txt "speaker", PStr (Orchestrator.speaker t));
          (txt "argument", PStr (Orchestrator.argument t)) ].

(** The dict of [run_simulation] as a value, which is how it is stored
    and how the response model receives it. *)
Definition py_of_simulation (r : Orchestrator.simulation_result) : pyval :=
  PDict [ (txt "debate_transcript",
           PList (List.map py_of_entry (Orchestrator.debate_transcript r)));
          (txt "verdict", Orchestrator.verdict r);
          (txt "rounds_completed", PInt (Orchestrator.rounds_completed r)) ].

Record SimulationResponse : Type := {
  sim_case_id : pystr;
  sim_debate_transcript : list pyval;
  sim_verdict : pyval;
  sim_rounds_completed : Z
}.

Record AuditResponse : Type := {
  audit_case_id : pystr;
  audit_result : pyval
}.

(** The check the response models make on a field declared
    [Dict[str, Any]]. *)
Definition validate_dict (v : pyval) : M unit :=
  if is_dict v then ret tt else raise ValidationError.

(** [v[key]] for a [str] key. *)
Definition py_getitem (v : pyval) (key : pystr) : result pyval :=
  match v with
  | PDict d =>
      match PyDict.get key d with
      | Some x => Ok x
      | None => Raise (KeyError key)
      end
  | _ => Raise TypeError
  end.

Section WithModel.

Variable py_repr : pyval -> pystr.
Variable groq : nat -> request -> completion.

(** The files of [PROMPTS_DIR] as [_load_prompt] reads them: the template
    of [<agent_type>.txt], empty when there is no such file. *)
Variable prompts : pystr -> template.

(** [LegalAgent.__init__]. *)
Definition LegalAgent (agent_type : pystr) : agent :=
  {| agent_type := agent_type; prompt_template := prompts agent_type |}.

(** The module-level [orchestrator = DebateOrchestrator()]. *)
Definition orchestrator : Orchestrator.DebateOrchestrator :=
  {| Orchestrator.plaintiff_lawyer := LegalAgent (txt "plaintiff_lawyer");
     Orchestrator.defendant_lawyer := LegalAgent (txt "defendant_lawyer");
     Orchestrator.judge := LegalAgent (txt "judge") |}.

(** The module-level [auditor = BiasAuditor()]. *)
Definition auditor : agent := LegalAgent (txt "auditor").

(** [POST /simulate/{case_id}]. *)
Definition run_simulation (case_id : pystr) (rounds : Z) : M SimulationResponse :=
  try_except
    (let* case_data := load_case case_id in
     let* _ :=
       match case_data !! "facts" with
       | None =>
           raise (HTTPException 400
                    (Detail (txt "Case must be processed before simulation")))
       | Some _ => ret tt
       end in
     let* simulation_result :=
       Orchestrator.run_simulation py_repr groq orchestrator case_data rounds in
     let* _ :=
       update_case case_id
         {[ "simulation" := py_of_simulation simulation_result ]} in
     let* _ := validate_dict (Orchestrator.verdict simulation_result) in
     ret {| sim_case_id := case_id;
            sim_debate_transcript :=
              List.map py_of_entry (Orchestrator.debate_transcript simulation_result);
            sim_verdict := Orchestrator.verdict simulation_result;
            sim_rounds_completed := Orchestrator.rounds_completed simulation_result |})
    (fun e =>
       match e with
       | FileNotFoundError => raise (HTTPException 404 (Detail (txt "Case not found")))
       | _ => raise (HTTPException 500 (DetailWith (txt "Error running simulation: ") e))
       end).

(** [POST /audit/{case_id}]. *)
Definition audit_case (case_id : pystr) : M AuditResponse :=
  try_except
    (let* case_data := load_case case_id in
     let* simulation :=
       match case_data !! "simulation" with
       | None =>
           raise (HTTPException 400
                    (Detail (txt "Simulation must be run before audit")))
       | Some simulation => ret simulation
       end in
     let* verdict := lift (py_getitem simulation (txt "verdict")) in
     let* audit_result := Auditor.audit py_repr groq auditor case_data verdict in
     let* _ := update_case case_id {[ "audit" := audit_result ]} in
     let* _ := validate_dict audit_result in
     ret {| audit_case_id := case_id; audit_result := audit_result |})
    (fun e =>
       match e with
       | FileNotFoundError => raise (HTTPException 404 (Detail (txt "Case not found")))
       | _ => raise (HTTPException 500 (DetailWith (txt "Error auditing case: ") e))
       end).

End WithModel.

End Server.

(** ** data_loader.py: the cleaning of an uploaded text and the saving of
    a new case *)

Module DataLoader.
Local Open Scope N_scope.

(** [re.sub(r'\s+', ' ', text)]: every maximal run of whitespace becomes
    one space.  [in_run] tells that the character before was whitespace,
    so that the space of the run is already written. *)
Fixpoint sub_whitespace (in_run : bool) (text : pystr) : pystr :=
  match text with
  | [] => []
  | c :: rest =>
      if isspace c then
        if in_run then sub_whitespace true rest
        else 32 :: sub_whitespace true rest
      else c :: sub_whitespace false rest
  end.

(** The punctuation that the second pattern lists: full stop, comma,
    semicolon, colon, exclamation and question mark, the two quotes, the
    two parentheses and the hyphen. *)
Definition punctuation : list N := [46; 44; 59; 58; 33; 63; 39; 34; 40; 41; 45].

Section WithUnicode.

(** [str.isalnum] on one code point, which is what [\w] tests besides the
    underscore: the Unicode database, taken as given. *)
Variable isalnum : N -> bool.

(** [\w] in a [str] pattern. *)
Definition is_word (c : N) : bool := isalnum c || (c =? 95).

(** The characters outside the negated class of the second pattern. *)
Definition kept (c : N) : bool :=
  is_word c || isspace c || existsb (N.eqb c) punctuation.

Definition clean_text (text : pystr) : pystr :=
  let text := sub_whitespace false text in
  let text := List.filter kept text in
  strip text.

End WithUnicode.

Section WithUuid.

(** [str(uuid.uuid4())] in a state of the world: 32 hexadecimal digits in
    five groups separated by hyphens, drawn at random. *)
Variable uuid4 : world -> pystr.

(** [save_case]: the record takes the new identifier under [case_id] and
    is written to the file of that identifier, whether or not there is
    one already. *)
Definition save_case (case_data : case_record) : M pystr :=
  fun w =>
    let case_id := uuid4 w in
    let case_data := <["case_id" := PStr case_id]> case_data in
    (Ok case_id,
     {| cases := <[case_id := case_data]> (cases w); calls := calls w |}).

End WithUuid.

End DataLoader.

(** ** Vocabulary of the properties *)

Import Agents.

(** The value under [name] in a dict; [None] for a missing key or for a
    value that is not a dict. *)
Definition field (name : string) (v : pyval) : option pyval :=
  match v with
  | PDict d => PyDict.get (txt name) d
  | _ => None
  end.

(** All the keywords of [bias_keywords], in scan order. *)
Definition lexicon : list pystr := flat_map snd bias_keywords.

(** The keywords that occur in the lower-cased text, as a set. *)
Definition matched_keywords (text : pystr) : gset pystr :=
  list_to_set (List.filter (fun k => contains k (lower text)) lexicon).

(** [needle] occurs in [hay] at some offset. *)
Definition occurs (needle hay : pystr) : Prop :=
  exists pre post, hay = pre ++ needle ++ post.

(** [needle] occurs in [hay] up to the case of the letters. *)
Definition occurs_ignoring_case (needle hay : pystr) : Prop :=
  exists pre w post, hay = pre ++ w ++ post /\ lower w = needle.

(** Modelled from the spec, which says case-insensitive of a word of
    lower-case ASCII letters: [c] is the letter or its capital, 32 code
    points below. *)
Definition in_either_case (letter c : N) : Prop :=
  c = letter \/ (c + 32)%N = letter.

(** [w] spells [word] letter by letter, each letter in either case. *)
Definition spells (word w : pystr) : Prop := Forall2 in_either_case word w.

(** [word] occurs in [text] at some offset, in any mix of cases. *)
Definition occurs_in_any_case (word text : pystr) : Prop :=
  exists pre w post, text = pre ++ w ++ post /\ spells word w.

(** The text [generate_response] returns for an outcome of the call. *)
Definition response_text (response : completion) : pystr :=
  match response with
  | Content text => strip text
  | Failure message => txt "Error generating response: " ++ message
  end.

(** Modelled from the spec: the prompt files of [backend/prompts] are not
    among the sources.  Its section 6 says that each template has named
    placeholders matching the keys of the context it is rendered with;
    [fits t keys] says that every placeholder of [t] is one of [keys]. *)
Definition fits (t : template) (keys : list string) : bool :=
  forallb (fun name => existsb (String.eqb name) keys) (placeholders t).

Definition round_keys : list string := ["facts"; "issues"; "holding"].

Definition judge_keys : list string :=
  ["facts"; "issues"; "holding"; "plaintiff_arguments"; "defendant_arguments"].

(** The context of the two turns of every round. *)
Definition round_context (case_data : case_record) : context :=
  {[ "facts" := get_or_empty case_data "facts";
     "issues" := get_or_empty case_data "issues";
     "holding" := get_or_empty case_data "holding" ]}.

(** The context of the judge for the two joined argument texts. *)
Definition judge_context (case_data : case_record)
    (plaintiff_arguments defendant_arguments : pystr) : context :=
  {[ "facts" := get_or_empty case_data "facts";
     "issues" := get_or_empty case_data "issues";
     "holding" := get_or_empty case_data "holding";
     "plaintiff_arguments" := PStr plaintiff_arguments;
     "defendant_arguments" := PStr defendant_arguments ]}.

(** Modelled from the spec (double-newline-joined, in transcript order):
    the texts one after the other, each one after the first preceded by
    two newlines. *)
Definition double_newline_joined (texts : list pystr) : pystr :=
  match texts with
  | [] => []
  | first :: others => first ++ flat_map (fun t => 10%N :: 10%N :: t) others
  end.

Section Trace.

Import Orchestrator.

Variable groq : nat -> request -> completion.
Variable self : DebateOrchestrator.
Variable case_data : case_record.
Variable plaintiff_prompt defendant_prompt : pystr.

(** The entries that the rounds add when the first of their calls is the
    [k]-th of the run. *)
Fixpoint debate_entries (k : nat) (rounds : list Z) : list transcript_entry :=
  match rounds with
  | [] => []
  | n :: rest =>
      {| round := n; speaker := txt "Plaintiff Lawyer";
         argument :=
           response_text
             (groq k (request_for (plaintiff_lawyer self) plaintiff_prompt)) |}
      :: {| round := n; speaker := txt "Defendant Lawyer";
            argument :=
              response_text
                (groq (S k) (request_for (defendant_lawyer self) defendant_prompt)) |}
      :: debate_entries (S (S k)) rest
  end.

(** The two logged calls of one round. *)
Definition round_calls : list model_call :=
  [ {| caller := agent_type (plaintiff_lawyer self);
       given := round_context case_data;
       sent := request_for (plaintiff_lawyer self) plaintiff_prompt |};
    {| caller := agent_type (defendant_lawyer self);
       given := round_context case_data;
       sent := request_for (defendant_lawyer self) defendant_prompt |} ].

End Trace.

Definition audit_keys : list string := ["facts"; "verdict"; "reasoning"].

(** The context that [BiasAuditor.audit] hands to the auditor. *)
Definition audit_context (facts verdict_text : pyval) (reasoning : pystr) : context :=
  {[ "facts" := facts; "verdict" := verdict_text; "reasoning" := PStr reasoning ]}.

Section Judging.

Import Orchestrator.

Variable py_repr : pyval -> pystr.
Variable groq : nat -> request -> completion.
Variable self : DebateOrchestrator.
Variable case_data : case_record.

(** What [run_simulation] does once the rounds are played. *)
Definition judging (debate_transcript : list transcript_entry) (rounds : Z)
  : M simulation_result :=
  let* verdict :=
    render_verdict py_repr groq (judge self)
      (judge_context case_data
         (join [10%N; 10%N] (arguments_of (txt "Plaintiff Lawyer") debate_transcript))
         (join [10%N; 10%N] (arguments_of (txt "Defendant Lawyer") debate_transcript))) in
  ret {| debate_transcript := debate_transcript;
         verdict := verdict;
         rounds_completed := rounds |}.

End Judging.

(** The raw judge text of the pass-through scenario. *)
Definition scenario_structured : pystr :=
  txt "The court finds in favor of the plaintiff. "
  ++ dq "{'verdict': 'FAVOR_PLAINTIFF', 'confidence': 88, 'reasoning': ['clear breach'], 'supporting_evidence': ['contract clause 4']}".

(** The raw judge text of the fallback scenario. *)
Definition scenario_unstructured : pystr :=
  txt "I believe the defendant acted properly throughout.".

(** An agent without a prompt file, and a model that always answers with
    the same text. *)
Definition bare_agent (agent_type : string) : agent :=
  {| agent_type := txt agent_type; prompt_template := [] |}.

Definition always (text : pystr) : nat -> request -> completion :=
  fun _ _ => Content text.

Definition empty_world : world := {| cases := ∅; calls := [] |}.

(** A concrete courtroom, for the instances of the properties. *)

(** Prompt files whose fields are keys of the contexts. *)
Definition demo_prompts (agent_type : pystr) : template :=
  if str_eqb agent_type (txt "judge") then
    [ Text (txt "Facts: "); Field "facts";
      Text (txt " Plaintiff: "); Field "plaintiff_arguments";
      Text (txt " Defendant: "); Field "defendant_arguments" ]
  else
    [ Text (txt "Facts: "); Field "facts"; Text (txt " Issues: "); Field "issues";
      Text (txt " Holding: "); Field "holding" ].

(** Prompt files in which the lawyers' template names a field that no
    context has. *)
Definition mismatched_prompts (agent_type : pystr) : template :=
  if str_eqb agent_type (txt "judge") then demo_prompts agent_type
  else [ Text (txt "Evidence: "); Field "evidence" ].

(** Prompt files in which only the judge's template names a field that
    its context lacks. *)
Definition unfit_judge_prompts (agent_type : pystr) : template :=
  if str_eqb agent_type (txt "judge")
  then [ Text (txt "Transcript: "); Field "transcript" ]
  else demo_prompts agent_type.

(** A model that answers every other request and fails on the others. *)
Definition demo_model (n : nat) (req : request) : completion :=
  if Nat.even n then Content (txt " The contract was breached. ")
  else Failure (txt "Request timed out.").

Definition no_repr (v : pyval) : pystr := [].

(** A processed case, and an uploaded case that is not processed yet. *)
Definition processed_case : case_record :=
  {[ "raw_text" := PStr (txt "Rent was unpaid for three months.");
     "facts" := PStr (txt "Rent was unpaid.");
     "issues" := PStr (txt "Is the lease terminated?");
     "holding" := PStr (txt "The lease stands.") ]}.

Definition uploaded_case : case_record :=
  {[ "raw_text" := PStr (txt "Rent was unpaid for three months.") ]}.

Definition demo_world : world :=
  {| cases := {[ txt "processed" := processed_case; txt "uploaded" := uploaded_case ]};
     calls := [] |}.

(** A case whose stored verdict is the list that [render_verdict] returns
    for the judge text [["verdict", "confidence"]]. *)
Definition list_verdict_case : case_record :=
  <[ "simulation" :=
       PDict [ (txt "debate_transcript", PList []);
               (txt "verdict", PList [PStr (txt "verdict"); PStr (txt "confidence")]);
               (txt "rounds_completed", PInt 0) ] ]> processed_case.

Definition list_verdict_world : world :=
  {| cases := {[ txt "listed" := list_verdict_case ]}; calls := [] |}.

(** The text can be encoded in UTF-8: it holds no surrogate code point. *)
Definition utf8_encodable (s : pystr) : bool :=
  forallb (fun c => negb ((55296 <=? c) && (c <=? 57343))%N) s.

(** The values that [json.dump] can write to a case file, which is opened
    with the UTF-8 encoding: those whose strings can all be encoded.  On
    the others the write of the source raises [UnicodeEncodeError]; the
    properties of the store are stated for the values that can be
    written. *)
Fixpoint storable (v : pyval) : bool :=
  match v with
  | PStr s => utf8_encodable s
  | PList items => forallb storable items
  | PDict items =>
      forallb
        (fun item => match item with (k, x) => utf8_encodable k && storable x end)
        items
  | PNone | PBool _ | PInt _ | PFloat _ => true
  end.


(** The status code of the [HTTPException] that a route raises. *)
Definition status_of {A} (outcome : result A * world) : option Z :=
  match fst outcome with
  | Raise (HTTPException status_code _) => Some status_code
  | _ => None
  end.

(** ** Text lemmas *)

Lemma str_eqb_eq a b : str_eqb a b = true <-> a = b.
Proof.
  revert b; induction a as [|x a IH]; intros [|y b]; simpl; split;
    try congruence; try done.
  - intros [Hx Hab]%andb_true_iff. apply N.eqb_eq in Hx. apply IH in Hab.
    congruence.
  - intros [= -> ->]. rewrite N.eqb_refl. simpl. by apply IH.
Qed.

Lemma str_eqb_refl a : str_eqb a a = true.
Proof. by apply str_eqb_eq. Qed.

Lemma startswith_spec p s : startswith p s = true <-> exists post, s = p ++ post.
Proof.
  revert s; induction p as [|x p IH]; intros s; simpl.
  - split; [intros _; by exists s | done].
  - destruct s as [|y s]; simpl.
    + split; [done | intros [post Hp]; discriminate].
    + rewrite andb_true_iff, N.eqb_eq, IH. split.
      * intros [-> [post ->]]. by exists post.
      * intros [post [= -> ->]]. split; [done | by exists post].
Qed.

Lemma contains_spec needle hay : contains needle hay = true <-> occurs needle hay.
Proof.
  unfold occurs. induction hay as [|c hay IH]; simpl.
  - rewrite orb_false_r, startswith_spec. split.
    + intros [post Hp]. by exists [], post.
    + intros [pre [post Hp]]. destruct pre; [by exists post | discriminate].
  - rewrite orb_true_iff, startswith_spec, IH. split.
    + intros [[post Hp] | [pre [post Hp]]].
      * by exists [], post.
      * exists (c :: pre), post. simpl. by rewrite Hp.
    + intros [[|c' pre] [post Hp]].
      * left. by exists post.
      * right. injection Hp as -> Hp. by exists pre, post.
Qed.

Lemma contains_lower_spec needle text :
  contains needle (lower text) = true <-> occurs_ignoring_case needle text.
Proof.
  rewrite contains_spec. unfold occurs, occurs_ignoring_case, lower. split.
  - intros [pre [post H]].
    apply map_eq_app in H as [pre' [rest [-> [Hpre H]]]].
    apply map_eq_app in H as [w [post' [-> [Hw Hpost]]]].
    by exists pre', w, post'.
  - intros [pre [w [post [-> Hw]]]].
    exists (List.map lower_cp pre), (List.map lower_cp post).
    by rewrite !List.map_app, Hw.
Qed.

Lemma lower_cp_letter letter c :
  (97 <= letter <= 122)%N -> lower_cp c = letter <-> in_either_case letter c.
Proof.
  intros Hl. unfold lower_cp, in_either_case.
  destruct (N.leb_spec 65 c), (N.leb_spec c 90), (N.leb_spec 192 c),
    (N.leb_spec c 222), (N.eqb_spec c 215); simpl; lia.
Qed.

Lemma lower_spells word : forall w,
  Forall (fun letter => (97 <= letter <= 122)%N) word ->
  lower w = word <-> spells word w.
Proof.
  unfold spells, lower.
  induction word as [|letter word IH]; intros w Hword.
  - destruct w as [|c w]; simpl; split.
    + intros _. constructor.
    + reflexivity.
    + intros Hw. discriminate Hw.
    + intros Hw. inversion Hw.
  - apply Forall_cons in Hword as [Hl Hword].
    destruct w as [|c w]; simpl; split.
    + intros Hw. discriminate Hw.
    + intros Hw. inversion Hw.
    + intros [= Hc Hw]. constructor; [by apply lower_cp_letter | by apply IH].
    + intros Hw. inversion Hw as [|? ? ? ? Hc Hw']; subst.
      f_equal; [by apply lower_cp_letter | by apply IH].
Qed.

Lemma contains_lower_any_case word text :
  Forall (fun letter => (97 <= letter <= 122)%N) word ->
  contains word (lower text) = true <-> occurs_in_any_case word text.
Proof.
  intros Hword. rewrite contains_lower_spec.
  unfold occurs_ignoring_case, occurs_in_any_case.
  split; intros [pre [w [post [Ht Hw]]]]; exists pre, w, post;
    (split; [done | by apply (lower_spells word w Hword)]).
Qed.

Lemma plaintiff_letters :
  Forall (fun letter => (97 <= letter <= 122)%N) (txt "plaintiff").
Proof. repeat constructor; vm_compute; by intros. Qed.

Lemma str_mem_In x xs : str_mem x xs = true <-> In x xs.
Proof.
  unfold str_mem. rewrite existsb_exists. split.
  - intros [y [Hy Heq]]. apply str_eqb_eq in Heq. by subst.
  - intros H. exists x. split; [done | apply str_eqb_refl].
Qed.

(** ** The fuel of the JSON scanner *)

(** [scan_once] is run by [loads] with a fuel above the length of the
    text.  The lemmas below show that this is as good as any larger fuel:
    a term that is read is read with as much fuel as it takes characters. *)

Module JsonFuel.
Import Json.
Local Open Scope nat_scope.

Lemma scan_mono f :
  (forall s r, scan_once f s = Some r -> scan_once (S f) s = Some r)
  /\ (forall s acc r, parse_members f s acc = Some r -> parse_members (S f) s acc = Some r)
  /\ (forall s acc r, parse_items f s acc = Some r -> parse_items (S f) s acc = Some r).
Proof.
  induction f as [|f [IH1 [IH2 IH3]]]; [by repeat split |].
  split; [| split].
  - intros s r H. cbn [scan_once] in H |- *.
    destruct s as [|c s]; [done |].
    repeat (destruct (_ =? _)%N; [try done |]); try done.
    + destruct (skip_ws s) as [|c1 r1]; [done |].
      destruct (_ =? _)%N; [done |]. by apply IH2.
    + destruct (skip_ws s) as [|c1 r1]; [done |].
      destruct (_ =? _)%N; [done |]. by apply IH3.
  - intros s acc r H. cbn [parse_members] in H |- *.
    destruct s as [|c s]; [done |].
    destruct (_ =? _)%N; [| done].
    destruct (scanstring s) as [[key r1] |]; [| done].
    destruct (skip_ws r1) as [|c2 r2]; [done |].
    destruct (_ =? _)%N; [| done].
    destruct (scan_once f (skip_ws r2)) as [[val r3] |] eqn:Hv; [| done].
    rewrite (IH1 _ _ Hv).
    destruct (skip_ws r3) as [|c4 r4]; [done |].
    destruct (_ =? _)%N; [done |].
    destruct (_ =? _)%N; [| done]. by apply IH2.
  - intros s acc r H. cbn [parse_items] in H |- *.
    destruct (scan_once f s) as [[val r1] |] eqn:Hv; [| done].
    rewrite (IH1 _ _ Hv).
    destruct (skip_ws r1) as [|c2 r2]; [done |].
    destruct (_ =? _)%N; [done |].
    destruct (_ =? _)%N; [| done]. by apply IH3.
Qed.

Lemma scan_once_le f f' s r :
  f <= f' -> scan_once f s = Some r -> scan_once f' s = Some r.
Proof.
  induction 1 as [|f' Hle IH]; [done |]. intros H. by apply scan_mono, IH.
Qed.

Lemma parse_members_le f f' s acc r :
  f <= f' -> parse_members f s acc = Some r -> parse_members f' s acc = Some r.
Proof.
  induction 1 as [|f' Hle IH]; [done |]. intros H. by apply scan_mono, IH.
Qed.

Lemma parse_items_le f f' s acc r :
  f <= f' -> parse_items f s acc = Some r -> parse_items f' s acc = Some r.
Proof.
  induction 1 as [|f' Hle IH]; [done |]. intros H. by apply scan_mono, IH.
Qed.

Lemma skip_ws_length s : length (skip_ws s) <= length s.
Proof.
  induction s as [|c s IH]; simpl; [done |]. destruct (is_ws c); simpl; lia.
Qed.

Lemma push_length {A} c (r : option (pystr * A)) str rest :
  push c r = Some (str, rest) -> exists str', r = Some (str', rest).
Proof. destruct r as [[s' rest'] |]; simpl; [| done]. intros [= <- <-]. eauto. Qed.

Lemma scanstring_length n : forall s str rest,
  length s <= n -> scanstring s = Some (str, rest) -> length rest < length s.
Proof.
  induction n as [|n IH]; intros s str rest Hn H.
  - destruct s; [done | simpl in Hn; lia].
  - destruct s as [|c r]; [done |]. cbn [scanstring] in H. simpl in Hn.
    destruct (c =? quote)%N; [injection H as <- <-; simpl; lia |].
    destruct (c =? backslash)%N.
    + destruct r as [|e r1]; [done |].
      destruct (e =? 117)%N.
      * destruct r1 as [|h1 [|h2 [|h3 [|h4 r2]]]]; try done.
        destruct (hex4 h1 h2 h3 h4) as [cp |]; [| done].
        assert (forall str, push cp (scanstring r2) = Some (str, rest) ->
                length rest < length (c :: e :: h1 :: h2 :: h3 :: h4 :: r2)) as Hplain.
        { intros str0 [str' Hs]%push_length. apply IH in Hs; simpl in *; lia. }
        destruct (is_high_surrogate cp); [| by eapply Hplain].
        destruct r2 as [|b [|u [|g1 [|g2 [|g3 [|g4 r3]]]]]]; try (by eapply Hplain).
        destruct ((b =? backslash) && (u =? 117))%N; [| by eapply Hplain].
        destruct (hex4 g1 g2 g3 g4) as [cp2 |]; [| done].
        destruct (is_low_surrogate cp2); [| by eapply Hplain].
        apply push_length in H as [str' Hs]. apply IH in Hs; simpl in *; lia.
      * destruct (simple_escape e); [| done].
        apply push_length in H as [str' Hs]. apply IH in Hs; simpl in *; lia.
    + destruct (c <=? 31)%N; [done |].
      apply push_length in H as [str' Hs]. apply IH in Hs; simpl in *; lia.
Qed.

Lemma span_digits_length s : length (snd (span_digits s)) <= length s.
Proof.
  induction s as [|c s IH]; simpl; [done |].
  destruct (is_digit c); [| simpl; lia].
  destruct (span_digits s); simpl in *. lia.
Qed.

Lemma match_frac_length s : length (snd (match_frac s)) <= length s.
Proof.
  destruct s as [|c r]; simpl; [done |].
  destruct (c =? 46)%N; [| simpl; lia].
  pose proof (span_digits_length r).
  destruct (span_digits r) as [[|d ds] rest]; simpl in *; lia.
Qed.

Lemma match_exp_length s : length (snd (match_exp s)) <= length s.
Proof.
  destruct s as [|c r]; simpl; [done |].
  destruct ((c =? 101) || (c =? 69))%N; [| simpl; lia].
  destruct r as [|g r'].
  - simpl. done.
  - destruct ((g =? 45) || (g =? 43))%N.
    + pose proof (span_digits_length r').
      destruct (span_digits r') as [[|d ds] rest]; simpl in *; lia.
    + pose proof (span_digits_length (g :: r')).
      destruct (span_digits (g :: r')) as [[|d ds] rest]; simpl in *; lia.
Qed.

Lemma match_number_length s v rest :
  match_number s = Some (v, rest) -> length rest < length s.
Proof.
  unfold match_number.
  assert (forall s1, length s1 <= length s ->
            match match_int s1 with
            | Some (ds, r1) =>
                let '(frac, r2) := match_frac r1 in
                let '(ex, r3) := match_exp r2 in
                length r3 < length s
            | None => True
            end) as Hint.
  { intros s1 Hs1. destruct s1 as [|c r]; simpl; [done |].
    assert (forall r1, length r1 <= length r ->
              let '(frac, r2) := match_frac r1 in
              let '(ex, r3) := match_exp r2 in length r3 < length s) as Htail.
    { intros r1 Hr1. pose proof (match_frac_length r1).
      destruct (match_frac r1) as [frac r2]. pose proof (match_exp_length r2).
      destruct (match_exp r2) as [ex r3]. simpl in *. lia. }
    destruct (c =? 48)%N; [by apply Htail |].
    destruct (is_digit c); [| done].
    pose proof (span_digits_length r).
    destruct (span_digits r) as [ds rest0]. by apply Htail. }
  destruct s as [|c r]; [done |].
  destruct (c =? 45)%N.
  - specialize (Hint r). 
    destruct (match_int r) as [[ds r1] |]; [| done].
    destruct (match_frac r1) as [frac r2]. destruct (match_exp r2) as [ex r3].
    intros H. assert (rest = r3) as -> by (destruct frac, ex; congruence).
    apply Hint. simpl. lia.
  - specialize (Hint (c :: r)).
    destruct (match_int (c :: r)) as [[ds r1] |]; [| done].
    destruct (match_frac r1) as [frac r2]. destruct (match_exp r2) as [ex r3].
    intros H. assert (rest = r3) as -> by (destruct frac, ex; congruence).
    by apply Hint.
Qed.

Lemma startswith_length p s : startswith p s = true -> length p <= length s.
Proof.
  revert s; induction p as [|x p IH]; intros [|y s]; simpl; try done; try lia.
  intros [_ H]%andb_true_iff. apply IH in H. lia.
Qed.

Lemma after_length p s rest :
  p <> EmptyString -> after p s = Some rest -> length rest < length s.
Proof.
  unfold after. intros Hp. destruct (startswith (txt p) s) eqn:Hs; [| done].
  intros [= <-]. apply startswith_length in Hs.
  rewrite length_skipn. unfold txt in Hs. rewrite length_map in Hs.
  assert (length (list_ascii_of_string p) = String.length p) as Hl.
  { clear. induction p; simpl; congruence. }
  rewrite Hl in Hs. destruct p; [done |]. simpl in *. lia.
Qed.

Lemma match_constant_length s v rest :
  match_constant s = Some (v, rest) -> length rest < length s.
Proof.
  unfold match_constant.
  repeat match goal with
         | |- context [after ?p s] =>
             destruct (after p s) eqn:?;
             [intros [= <- <-]; (eapply after_length; [| eassumption]); discriminate |]
         end.
  done.
Qed.

(** A term that is read leaves a shorter text, and is read again with as
    much fuel as it has characters. *)
Lemma scan_fuel f :
  (forall s v rest, scan_once f s = Some (v, rest) ->
     length rest < length s
     /\ scan_once (length s - length rest) s = Some (v, rest))
  /\ (forall s acc v rest, parse_members f s acc = Some (v, rest) ->
        length rest < length s
        /\ parse_members (length s - length rest) s acc = Some (v, rest))
  /\ (forall s acc v rest, parse_items f s acc = Some (v, rest) ->
        length rest < length s
        /\ parse_items (length s - length rest) s acc = Some (v, rest)).
Proof.
  induction f as [|f [IH1 [IH2 IH3]]]; [by repeat split |].
  split; [| split].
  - intros s v rest H. cbn [scan_once] in H.
    destruct s as [|c s]; [done |].
    pose proof (skip_ws_length s) as Hws.
    destruct (c =? quote)%N eqn:E1.
    { destruct (scanstring s) as [[str r] |] eqn:E2; [| done].
      injection H as <- <-.
      pose proof (scanstring_length _ _ _ _ (le_n _) E2).
      split; [simpl; lia |].
      apply (scan_once_le 1); [simpl; lia |].
      cbn [scan_once]. by rewrite E1, E2. }
    destruct (c =? 123)%N eqn:E2.
    { destruct (skip_ws s) as [|c1 r1] eqn:E3; [done |]. simpl in Hws.
      destruct (c1 =? 125)%N eqn:E4.
      - injection H as <- <-. split; [simpl; lia |].
        apply (scan_once_le 1); [simpl; lia |].
        cbn [scan_once]. by rewrite E1, E2, E3, E4.
      - apply IH2 in H as [Hlt Hmin]. split; [simpl in *; lia |].
        apply (scan_once_le (S (length (c1 :: r1) - length rest)));
          [simpl in *; lia |].
        cbn [scan_once]. by rewrite E1, E2, E3, E4. }
    destruct (c =? 91)%N eqn:E3.
    { destruct (skip_ws s) as [|c1 r1] eqn:E4; [done |]. simpl in Hws.
      destruct (c1 =? 93)%N eqn:E5.
      - injection H as <- <-. split; [simpl; lia |].
        apply (scan_once_le 1); [simpl; lia |].
        cbn [scan_once]. by rewrite E1, E2, E3, E4, E5.
      - apply IH3 in H as [Hlt Hmin]. split; [simpl in *; lia |].
        apply (scan_once_le (S (length (c1 :: r1) - length rest)));
          [simpl in *; lia |].
        cbn [scan_once]. by rewrite E1, E2, E3, E4, E5. }
    assert (length rest < length (c :: s)) as Hlt.
    { destruct (match_constant (c :: s)) as [[v0 r0] |] eqn:E4.
      - injection H as <- <-. by eapply match_constant_length.
      - by eapply match_number_length. }
    split; [done |].
    apply (scan_once_le 1); [lia |].
    cbn [scan_once]. by rewrite E1, E2, E3.
  - intros s acc v rest H. cbn [parse_members] in H.
    destruct s as [|c s]; [done |].
    destruct (c =? quote)%N eqn:E1; [| done].
    destruct (scanstring s) as [[key r1] |] eqn:E2; [| done].
    pose proof (scanstring_length _ _ _ _ (le_n _) E2) as Hl1.
    pose proof (skip_ws_length r1) as Hl2.
    destruct (skip_ws r1) as [|c2 r2] eqn:E3; [done |]. simpl in Hl2.
    destruct (c2 =? 58)%N eqn:E4; [| done].
    pose proof (skip_ws_length r2) as Hl3.
    destruct (scan_once f (skip_ws r2)) as [[val r3] |] eqn:E5; [| done].
    apply IH1 in E5 as [Hl4 Hmin5].
    pose proof (skip_ws_length r3) as Hl5.
    destruct (skip_ws r3) as [|c4 r4] eqn:E6; [done |]. simpl in Hl5.
    destruct (c4 =? 125)%N eqn:E7.
    + injection H as <- <-. split; [simpl; lia |].
      apply (parse_members_le (S (length (skip_ws r2) - length r3)));
        [simpl; lia |].
      cbn [parse_members]. by rewrite E1, E2, E3, E4, Hmin5, E6, E7.
    + destruct (c4 =? 44)%N eqn:E8; [| done].
      pose proof (skip_ws_length r4) as Hl6.
      apply IH2 in H as [Hl7 Hmin].
      split; [simpl; lia |].
      apply (parse_members_le
               (S (Nat.max (length (skip_ws r2) - length r3)
                     (length (skip_ws r4) - length rest))));
        [simpl; lia |].
      cbn [parse_members]. rewrite E1, E2, E3, E4.
      rewrite (scan_once_le _ _ _ _ (Nat.le_max_l _ _) Hmin5).
      rewrite E6, E7, E8.
      exact (parse_members_le _ _ _ _ _ (Nat.le_max_r _ _) Hmin).
  - intros s acc v rest H. cbn [parse_items] in H.
    destruct (scan_once f s) as [[val r1] |] eqn:E1; [| done].
    apply IH1 in E1 as [Hl1 Hmin1].
    pose proof (skip_ws_length r1) as Hl2.
    destruct (skip_ws r1) as [|c2 r2] eqn:E2; [done |]. simpl in Hl2.
    destruct (c2 =? 93)%N eqn:E3.
    + injection H as <- <-. split; [lia |].
      apply (parse_items_le (S (length s - length r1))); [lia |].
      cbn [parse_items]. by rewrite Hmin1, E2, E3.
    + destruct (c2 =? 44)%N eqn:E4; [| done].
      pose proof (skip_ws_length r2) as Hl3.
      apply IH3 in H as [Hl4 Hmin].
      split; [lia |].
      apply (parse_items_le
               (S (Nat.max (length s - length r1)
                     (length (skip_ws r2) - length rest)))); [lia |].
      cbn [parse_items].
      rewrite (scan_once_le _ _ _ _ (Nat.le_max_l _ _) Hmin1).
      rewrite E2, E3, E4.
      exact (parse_items_le _ _ _ _ _ (Nat.le_max_r _ _) Hmin).
Qed.

(** The fuel that [loads] gives is enough: more fuel reads the same. *)
Lemma loads_fuel_suffices s fuel :
  S (S (length s)) <= fuel ->
  scan_once fuel (skip_ws s) = scan_once (S (S (length s))) (skip_ws s).
Proof.
  intros Hfuel. pose proof (skip_ws_length s) as Hws.
  destruct (scan_once fuel (skip_ws s)) as [[v rest] |] eqn:Hbig.
  - apply scan_fuel in Hbig as [Hlt Hmin]. symmetry.
    eapply scan_once_le; [| exact Hmin]. lia.
  - destruct (scan_once (S (S (length s))) (skip_ws s)) as [r |] eqn:Hsmall;
      [| done].
    rewrite (scan_once_le _ _ _ _ Hfuel Hsmall) in Hbig. done.
Qed.
End JsonFuel.

(** ** The keyword scan *)

Section KeywordScan.

Variable text_lower : pystr.

Lemma scan_keyword_found bias_type st keyword :
  NoDup (fst st) ->
  NoDup (fst (scan_keyword text_lower bias_type st keyword))
  /\ forall x, In x (fst (scan_keyword text_lower bias_type st keyword))
       <-> In x (fst st) \/ (x = keyword /\ contains x text_lower = true).
Proof.
  destruct st as [found types]; simpl. intros Hnd.
  destruct (contains keyword text_lower) eqn:Hc; simpl.
  - destruct (str_mem keyword found) eqn:Hm; simpl.
    + apply str_mem_In in Hm. split; [done |].
      intros x; split; [by left | intros [H | [-> _]]; done].
    + assert (~ In keyword found) as Hnot.
      { intros H%str_mem_In. congruence. }
      split.
      * apply NoDup_app. repeat split; [done | | apply NoDup_singleton].
        intros x Hx ->%list_elem_of_singleton. by apply Hnot, list_elem_of_In.
      * intros x. rewrite in_app_iff. simpl. split.
        -- intros [H | [<- | []]]; [by left | by right].
        -- intros [H | [-> _]]; [by left | right; by left].
  - split; [done |]. intros x; split; [by left | intros [H | [-> H]]; congruence].
Qed.

Lemma scan_keywords_found bias_type keywords : forall st,
  NoDup (fst st) ->
  NoDup (fst (fold_left (scan_keyword text_lower bias_type) keywords st))
  /\ forall x, In x (fst (fold_left (scan_keyword text_lower bias_type) keywords st))
       <-> In x (fst st) \/ (In x keywords /\ contains x text_lower = true).
Proof.
  induction keywords as [|k ks IH]; intros st Hnd; simpl.
  - split; [done |]. intros x; split; [by left | intros [H | [[] _]]; done].
  - destruct (scan_keyword_found bias_type st k Hnd) as [Hnd' Hin'].
    destruct (IH _ Hnd') as [Hnd'' Hin'']. split; [done |].
    intros x. rewrite Hin'', Hin'. split.
    + intros [[H | [-> H]] | [H1 H2]]; [by left | right | right]; split; auto.
    + intros [H | [[<- | H1] H2]]; [left; by left | left; right | right]; auto.
Qed.

Lemma scan_categories_found categories : forall st,
  NoDup (fst st) ->
  let st' :=
    fold_left
      (fun st '(bias_type, keywords) =>
         fold_left (scan_keyword text_lower bias_type) keywords st)
      categories st in
  NoDup (fst st')
  /\ forall x, In x (fst st')
       <-> In x (fst st) \/ (In x (flat_map snd categories) /\ contains x text_lower = true).
Proof.
  induction categories as [|[bias_type keywords] cs IH]; intros st Hnd; simpl.
  - split; [done |]. intros x; split; [by left | intros [H | [[] _]]; done].
  - destruct (scan_keywords_found bias_type keywords st Hnd) as [Hnd' Hin'].
    destruct (IH _ Hnd') as [Hnd'' Hin'']. split; [done |].
    intros x. rewrite Hin'', Hin', in_app_iff. tauto.
Qed.

Lemma scan_biases_found :
  NoDup (fst (scan_biases text_lower))
  /\ forall x, In x (fst (scan_biases text_lower))
       <-> In x lexicon /\ contains x text_lower = true.
Proof.
  destruct (scan_categories_found bias_keywords ([], [])) as [Hnd Hin].
  { simpl. apply NoDup_nil_2. }
  split; [exact Hnd |]. intros x. unfold scan_biases, lexicon.
  rewrite Hin. simpl. tauto.
Qed.

End KeywordScan.

Lemma found_biases_count text :
  List.length (fst (scan_biases (lower text))) = size (matched_keywords text).
Proof.
  destruct (scan_biases_found (lower text)) as [Hnd Hin].
  rewrite <- (size_list_to_set (C := gset pystr) _ Hnd). f_equal.
  unfold matched_keywords. apply set_eq. intros x.
  rewrite !elem_of_list_to_set, !list_elem_of_In, Hin, filter_In. tauto.
Qed.

(** ** Properties of the fallback bias scan *)

Lemma field_fairness_score text :
  field "fairness_score" (_simple_bias_detection text)
  = Some (PInt (fairness_of (fst (scan_biases (lower text))))).
Proof.
  unfold _simple_bias_detection.
  destruct (scan_biases (lower text)) as [found_biases bias_types].
  reflexivity.
Qed.

(** C5.  For every input text the fallback bias scan reports
    [fairness_score = max(50, 100 - 5 n)], where [n] is the number of
    distinct keywords of the lexicon that the text matches; with no match
    the score is 100, and with ten or more it is 50. *)
Theorem fairness_score_formula (text : pystr) :
  let n := Z.of_nat (size (matched_keywords text)) in
  field "fairness_score" (_simple_bias_detection text)
    = Some (PInt (Z.max 50 (100 - 5 * n)))
  /\ (n = 0 ->
      field "fairness_score" (_simple_bias_detection text) = Some (PInt 100))
  /\ (10 <= n ->
      field "fairness_score" (_simple_bias_detection text) = Some (PInt 50)).
Proof.
  intros n. rewrite field_fairness_score. unfold fairness_of, py_len.
  rewrite found_biases_count. fold n.
  repeat split; intros; do 2 f_equal; lia.
Qed.

(** The scan at a text with no keyword and at one with ten of them. *)
Lemma fairness_score_formula_witness :
  field "fairness_score" (_simple_bias_detection (txt "a contract dispute"))
    = Some (PInt 100)
  /\ field "fairness_score"
       (_simple_bias_detection
          (txt "She and her village: a Hindu woman, a Muslim man, north or south"))
     = Some (PInt 50).
Proof.
  split.
  - apply (fairness_score_formula (txt "a contract dispute")).
    vm_compute. reflexivity.
  - apply (fairness_score_formula
             (txt "She and her village: a Hindu woman, a Muslim man, north or south")).
    vm_compute. discriminate.
Defined.

(** C6, as the claim states it, fails: the scan of the text 'historical'
    does not come out with no keyword, a score of 100 and no bias type,
    because 'his' is a substring of it. *)
Lemma historical_is_matched :
  ~ (fst (scan_biases (lower (txt "historical"))) = []
     /\ field "fairness_score" (_simple_bias_detection (txt "historical"))
        = Some (PInt 100)
     /\ field "bias_types" (_simple_bias_detection (txt "historical"))
        = Some (PList [])).
Proof. intros [H _]. vm_compute in H. discriminate. Qed.

(** C6, amended.  The fallback bias scan decides each keyword of the
    lexicon by substring containment in the lower-cased full text, with no
    regard for word boundaries; the word 'historical' contains the keyword
    'his', so its scan matches exactly that keyword and yields
    [fairness_score = 95] and [bias_types = ['gender']]. *)
Theorem bias_scan_is_substring_match :
  (forall text keyword,
     In keyword (fst (scan_biases (lower text)))
     <-> In keyword lexicon /\ occurs keyword (lower text))
  /\ In (txt "his") lexicon
  /\ occurs (txt "his") (lower (txt "historical"))
  /\ scan_biases (lower (txt "historical")) = ([txt "his"], [txt "gender"])
  /\ field "fairness_score" (_simple_bias_detection (txt "historical"))
     = Some (PInt 95)
  /\ field "bias_types" (_simple_bias_detection (txt "historical"))
     = Some (PList [PStr (txt "gender")]).
Proof.
  split.
  { intros text keyword.
    destruct (scan_biases_found (lower text)) as [_ Hin].
    by rewrite Hin, contains_spec. }
  split; [vm_compute; tauto |].
  split; [by exists [], (txt "torical") |].
  repeat split; vm_compute; reflexivity.
Qed.

(** ** Properties of structured result extraction *)

(** C3.  When the text of the judge holds nothing that parses, or what
    parses is an object without one of the two required keys (or any other
    value that fails the test of the keys), the verdict is the fallback
    one: [FAVOR_PLAINTIFF] if the word 'plaintiff' occurs in the text with
    its letters in any mix of cases and [FAVOR_DEFENDANT] otherwise,
    confidence 75, the first 200 characters of the text as the only item
    of [reasoning], and the fixed placeholder as [supporting_evidence]. *)
Theorem fallback_verdict_contents (raw : pystr) :
  (parse_json_from_response raw = None
   \/ (exists d, parse_json_from_response raw = Some (PDict d)
         /\ (PyDict.get (txt "verdict") d = None
             \/ PyDict.get (txt "confidence") d = None))
   \/ exists v, parse_json_from_response raw = Some v
        /\ has_keys [txt "verdict"; txt "confidence"] v = false) ->
  exists verdict_type,
    verdict_from_text raw
    = PDict [ (txt "verdict", PStr verdict_type);
              (txt "confidence", PInt 75);
              (txt "reasoning", PList [PStr (firstn 200 raw)]);
              (txt "supporting_evidence",
               PList [PStr (txt "Evidence from case facts")]) ]
    /\ (occurs_in_any_case (txt "plaintiff") raw
        -> verdict_type = txt "FAVOR_PLAINTIFF")
    /\ (~ occurs_in_any_case (txt "plaintiff") raw
        -> verdict_type = txt "FAVOR_DEFENDANT").
Proof.
  intros Hno.
  assert (try_structured [txt "verdict"; txt "confidence"] raw = None) as Htry.
  { unfold try_structured.
    destruct Hno as [-> | [[d [-> Hd]] | [v [-> ->]]]]; [reflexivity | | reflexivity].
    unfold has_keys, py_in, PyDict.mem.
    destruct Hd as [-> | Hd]; [reflexivity |].
    rewrite Hd. by destruct (PyDict.get (txt "verdict") d). }
  unfold verdict_from_text. rewrite Htry. unfold fallback_verdict, prefix_slice.
  eexists. split; [reflexivity |].
  pose proof (contains_lower_any_case (txt "plaintiff") raw plaintiff_letters) as Hspec.
  destruct (contains (txt "plaintiff") (lower raw)) eqn:Hc.
  - split; [done |]. intros Hn. exfalso. by apply Hn, Hspec.
  - split; [| done]. intros Ho%Hspec. congruence.
Qed.

(** Three judge texts without a usable object: one that names the
    plaintiff in capitals, the fallback scenario of the specification,
    and an object that lacks [confidence]. *)
Lemma fallback_verdict_contents_witness :
  verdict_from_text (txt "The PLAINTIFF must prevail.")
  = PDict [ (txt "verdict", PStr (txt "FAVOR_PLAINTIFF"));
            (txt "confidence", PInt 75);
            (txt "reasoning", PList [PStr (txt "The PLAINTIFF must prevail.")]);
            (txt "supporting_evidence",
             PList [PStr (txt "Evidence from case facts")]) ]
  /\ verdict_from_text scenario_unstructured
     = PDict [ (txt "verdict", PStr (txt "FAVOR_DEFENDANT"));
               (txt "confidence", PInt 75);
               (txt "reasoning", PList [PStr scenario_unstructured]);
               (txt "supporting_evidence",
                PList [PStr (txt "Evidence from case facts")]) ]
  /\ verdict_from_text (dq "{'verdict': 'Favor_Plaintiff'}")
     = PDict [ (txt "verdict", PStr (txt "FAVOR_PLAINTIFF"));
               (txt "confidence", PInt 75);
               (txt "reasoning", PList [PStr (dq "{'verdict': 'Favor_Plaintiff'}")]);
               (txt "supporting_evidence",
                PList [PStr (txt "Evidence from case facts")]) ].
Proof.
  split; [| split].
  - destruct (fallback_verdict_contents (txt "The PLAINTIFF must prevail."))
      as [verdict_type [Hverdict [Hyes _]]]; [left; vm_compute; reflexivity |].
    rewrite Hverdict, Hyes; [reflexivity |].
    exists (txt "The "), (txt "PLAINTIFF"), (txt " must prevail.").
    split; [reflexivity |]. repeat constructor; by right.
  - destruct (fallback_verdict_contents scenario_unstructured)
      as [verdict_type [Hverdict [_ Hno]]]; [left; vm_compute; reflexivity |].
    rewrite Hverdict, Hno; [reflexivity |].
    intros Ho%(contains_lower_any_case _ _ plaintiff_letters).
    vm_compute in Ho. discriminate Ho.
  - destruct (fallback_verdict_contents (dq "{'verdict': 'Favor_Plaintiff'}"))
      as [verdict_type [Hverdict [Hyes _]]].
    { right; left. eexists. split; [vm_compute; reflexivity |]. by right. }
    rewrite Hverdict, Hyes; [reflexivity |].
    exists (dq "{'verdict': 'Favor_"), (txt "Plaintiff"), (dq "'}").
    split; [reflexivity |]. repeat constructor; (by left) || (by right).
Defined.

(** C4.  When the first balanced-brace substring of the judge text parses
    as an object that has both 'verdict' and 'confidence', the verdict is
    that object as parsed, whatever the types and ranges of its values;
    on the scenario text it is the embedded object, with confidence 88. *)
Theorem structured_verdict_passes_through :
  (forall raw json_match d,
     Regex.search raw = Some json_match ->
     Json.loads json_match = Some (PDict d) ->
     PyDict.mem (txt "verdict") d = true ->
     PyDict.mem (txt "confidence") d = true ->
     verdict_from_text raw = PDict d)
  /\ verdict_from_text scenario_structured
     = PDict [ (txt "verdict", PStr (txt "FAVOR_PLAINTIFF"));
               (txt "confidence", PInt 88);
               (txt "reasoning", PList [PStr (txt "clear breach")]);
               (txt "supporting_evidence",
                PList [PStr (txt "contract clause 4")]) ]
  /\ field "confidence" (verdict_from_text scenario_structured) = Some (PInt 88)
  /\ field "confidence" (fallback_verdict scenario_structured) = Some (PInt 75).
Proof.
  split.
  - intros raw json_match d Hsearch Hloads Hv Hc.
    unfold verdict_from_text, try_structured, parse_json_from_response.
    rewrite Hsearch, Hloads. simpl. by rewrite Hv, Hc.
  - repeat split; vm_compute; reflexivity.
Qed.

(** The pass-through at the scenario text, from the general statement. *)
Lemma structured_verdict_passes_through_witness :
  verdict_from_text scenario_structured
  = PDict [ (txt "verdict", PStr (txt "FAVOR_PLAINTIFF"));
            (txt "confidence", PInt 88);
            (txt "reasoning", PList [PStr (txt "clear breach")]);
            (txt "supporting_evidence", PList [PStr (txt "contract clause 4")]) ].
Proof.
  apply (proj1 structured_verdict_passes_through scenario_structured
           (dq "{'verdict': 'FAVOR_PLAINTIFF', 'confidence': 88, 'reasoning': ['clear breach'], 'supporting_evidence': ['contract clause 4']}"));
    vm_compute; reflexivity.
Defined.

(** C2 at its failing inputs.  A model text that is a JSON array naming
    the required keys passes the key test of [render_verdict] and of
    [audit_case], and comes back as that array: the result is not a dict
    and has neither a verdict nor a confidence nor a fairness score. *)
Theorem extraction_returns_a_list :
  verdict_from_text (dq "['verdict', 'confidence']")
    = PList [PStr (txt "verdict"); PStr (txt "confidence")]
  /\ fst (render_verdict (fun _ => []) (always (dq "['verdict', 'confidence']"))
            (bare_agent "judge") ∅ empty_world)
     = Ok (PList [PStr (txt "verdict"); PStr (txt "confidence")])
  /\ field "verdict" (verdict_from_text (dq "['verdict', 'confidence']")) = None
  /\ field "confidence" (verdict_from_text (dq "['verdict', 'confidence']")) = None
  /\ fst (audit_case (fun _ => []) (always (dq "['fairness_score']"))
            (bare_agent "auditor") ∅ empty_world)
     = Ok (PList [PStr (txt "fairness_score")])
  /\ field "fairness_score" (PList [PStr (txt "fairness_score")]) = None.
Proof. repeat split; vm_compute; reflexivity. Qed.

(** ** Properties of agent invocation *)

Section Invocation.

Variable py_repr : pyval -> pystr.
Variable groq : nat -> request -> completion.

Lemma format_raises t (ctx : context) e :
  format py_repr t ctx = Raise e ->
  exists name, e = KeyError (txt name) /\ In name (placeholders t) /\ ctx !! name = None.
Proof.
  induction t as [|[s | name] t IH]; simpl; [done | |].
  - destruct (format py_repr t ctx); [done |]. intros [= <-]. by apply IH.
  - destruct (ctx !! name) as [v |] eqn:Hname.
    + destruct (format py_repr t ctx); [done |]. intros [= <-].
      destruct (IH eq_refl) as [n [-> [Hin Hn]]]. exists n. auto.
    + intros [= <-]. exists name. auto.
Qed.

Lemma format_returns t (ctx : context) prompt :
  format py_repr t ctx = Ok prompt ->
  forall name, In name (placeholders t) -> ctx !! name <> None.
Proof.
  revert prompt. induction t as [|[s | name] t IH]; simpl; intros prompt; [done | |].
  - destruct (format py_repr t ctx) eqn:Hf; [| done]. intros _. by eapply IH.
  - destruct (ctx !! name) as [v |] eqn:Hname; [| done].
    destruct (format py_repr t ctx) eqn:Hf; [| done].
    intros _ n [<- | Hin]; [congruence | by eapply IH].
Qed.

Lemma generate_response_rendered self (ctx : context) prompt w :
  format py_repr (prompt_template self) ctx = Ok prompt ->
  generate_response py_repr groq self ctx w
  = (Ok (response_text (groq (List.length (calls w)) (request_for self prompt))),
     logged self ctx (request_for self prompt) w).
Proof.
  intros Hf. unfold generate_response, bind, lift, chat_completions_create.
  rewrite Hf. by destruct (groq _ _).
Qed.

Lemma generate_response_mismatch self (ctx : context) e w :
  format py_repr (prompt_template self) ctx = Raise e ->
  generate_response py_repr groq self ctx w = (Raise e, w).
Proof.
  intros Hf. unfold generate_response, bind, lift. by rewrite Hf.
Qed.

(** C7.  [generate_response] raises exactly when the context lacks a
    placeholder of the agent's prompt template, and what it raises then is
    the [KeyError] of [str.format] for such a placeholder; once the
    template is rendered, it returns a text whatever the model call does:
    the stripped content, or 'Error generating response: ' followed by
    the message of the exception that the call raised. *)
Theorem generate_response_raises_iff_template_mismatch
    (self : agent) (ctx : context) (w : world) :
  ((exists e, fst (generate_response py_repr groq self ctx w) = Raise e)
   <-> (exists name,
          In name (placeholders (prompt_template self)) /\ ctx !! name = None))
  /\ (forall e, fst (generate_response py_repr groq self ctx w) = Raise e ->
        exists name, e = KeyError (txt name)
          /\ In name (placeholders (prompt_template self)) /\ ctx !! name = None)
  /\ (forall prompt, format py_repr (prompt_template self) ctx = Ok prompt ->
        fst (generate_response py_repr groq self ctx w)
        = Ok (match groq (List.length (calls w)) (request_for self prompt) with
              | Content text => strip text
              | Failure message => txt "Error generating response: " ++ message
              end)).
Proof.
  destruct (format py_repr (prompt_template self) ctx) as [prompt | e0] eqn:Hf.
  - rewrite (generate_response_rendered _ _ _ _ Hf). simpl.
    split; [split |].
    + intros [e He]. discriminate.
    + intros [name [Hin Hnone]]. by destruct (format_returns _ _ _ Hf name Hin).
    + split; [intros e He; discriminate |].
      intros prompt' [= <-]. reflexivity.
  - rewrite (generate_response_mismatch _ _ _ _ Hf). simpl.
    destruct (format_raises _ _ _ Hf) as [name [-> [Hin Hnone]]].
    split; [split |].
    + intros _. by exists name.
    + intros _. by eexists.
    + split; [| intros prompt Hp; discriminate].
      intros e [= <-]. by exists name.
Qed.

End Invocation.

(** ** Properties of the debate orchestrator *)

Lemma fits_In t keys name :
  fits t keys = true -> In name (placeholders t) -> In name keys.
Proof.
  unfold fits. rewrite forallb_forall. intros Hall Hin.
  apply Hall in Hin. apply existsb_exists in Hin as [k [Hk Heq]].
  apply String.eqb_eq in Heq. by subst.
Qed.

Section Debate.

Import Orchestrator.

Variable py_repr : pyval -> pystr.
Variable groq : nat -> request -> completion.

Lemma fits_format t keys (ctx : context) :
  fits t keys = true ->
  (forall name, In name keys -> ctx !! name <> None) ->
  exists prompt, format py_repr t ctx = Ok prompt.
Proof.
  intros Hfits Hkeys.
  destruct (format py_repr t ctx) as [prompt | e] eqn:Hf; [by exists prompt |].
  destruct (format_raises _ _ _ _ Hf) as [name [_ [Hin Hnone]]].
  destruct (Hkeys name (fits_In _ _ _ Hfits Hin) Hnone).
Qed.

Variable self : DebateOrchestrator.
Variable case_data : case_record.

Lemma round_context_keys name :
  In name round_keys -> round_context case_data !! name <> None.
Proof.
  unfold round_keys, round_context. simpl.
  intros [<- | [<- | [<- | []]]]; by simplify_map_eq.
Qed.

Lemma judge_context_keys pa da name :
  In name judge_keys -> judge_context case_data pa da !! name <> None.
Proof.
  unfold judge_keys, judge_context. simpl.
  intros [<- | [<- | [<- | [<- | [<- | []]]]]]; by simplify_map_eq.
Qed.

Variable plaintiff_prompt defendant_prompt : pystr.

Hypothesis plaintiff_rendered :
  format py_repr (prompt_template (plaintiff_lawyer self)) (round_context case_data)
  = Ok plaintiff_prompt.
Hypothesis defendant_rendered :
  format py_repr (prompt_template (defendant_lawyer self)) (round_context case_data)
  = Ok defendant_prompt.

Lemma debate_round_runs debate_transcript n w :
  debate_round py_repr groq self
    (get_or_empty case_data "facts") (get_or_empty case_data "issues")
    (get_or_empty case_data "holding") debate_transcript n w
  = (Ok (debate_transcript
         ++ debate_entries groq self plaintiff_prompt defendant_prompt
              (List.length (calls w)) [n]),
     {| cases := cases w;
        calls :=
          calls w ++ round_calls self case_data plaintiff_prompt defendant_prompt |}).
Proof.
  unfold debate_round, bind. fold (round_context case_data).
  rewrite (generate_response_rendered _ _ _ _ _ _ plaintiff_rendered).
  rewrite (generate_response_rendered _ _ _ _ _ _ defendant_rendered).
  unfold ret, logged. simpl. rewrite length_app. simpl.
  rewrite Nat.add_1_r, <- !app_assoc. reflexivity.
Qed.

Lemma rounds_loop rounds : forall debate_transcript w,
  for_each rounds
    (debate_round py_repr groq self
       (get_or_empty case_data "facts") (get_or_empty case_data "issues")
       (get_or_empty case_data "holding")) debate_transcript w
  = (Ok (debate_transcript
         ++ debate_entries groq self plaintiff_prompt defendant_prompt
              (List.length (calls w)) rounds),
     {| cases := cases w;
        calls :=
          calls w
          ++ concat (replicate (List.length rounds)
                       (round_calls self case_data plaintiff_prompt defendant_prompt)) |}).
Proof.
  induction rounds as [|n rounds IH]; intros debate_transcript w; simpl.
  - unfold ret. rewrite !app_nil_r. by destruct w.
  - unfold bind. rewrite debate_round_runs, IH. simpl.
    rewrite length_app. simpl. rewrite <- !app_assoc. simpl.
    replace (List.length (calls w) + 2)%nat with (S (S (List.length (calls w))))
      by lia.
    reflexivity.
Qed.

Lemma debate_entries_length k rounds :
  List.length (debate_entries groq self plaintiff_prompt defendant_prompt k rounds)
  = (2 * List.length rounds)%nat.
Proof.
  revert k; induction rounds as [|n rounds IH]; intros k; simpl; [done |].
  rewrite IH. lia.
Qed.

Lemma debate_entries_lookup rounds : forall k (i : nat) n,
  rounds !! i = Some n ->
  debate_entries groq self plaintiff_prompt defendant_prompt k rounds !! (2 * i)%nat
    = Some {| round := n; speaker := txt "Plaintiff Lawyer";
              argument :=
                response_text
                  (groq (k + 2 * i)
                     (request_for (plaintiff_lawyer self) plaintiff_prompt)) |}
  /\ debate_entries groq self plaintiff_prompt defendant_prompt k rounds
       !! (2 * i + 1)%nat
     = Some {| round := n; speaker := txt "Defendant Lawyer";
               argument :=
                 response_text
                   (groq (k + 2 * i + 1)
                      (request_for (defendant_lawyer self) defendant_prompt)) |}.
Proof.
  induction rounds as [|m rounds IH]; intros k i n Hi; [done |].
  destruct i as [|i]; simpl in Hi.
  - injection Hi as ->. simpl. rewrite Nat.add_0_r. split; [done |].
    by rewrite Nat.add_1_r.
  - destruct (IH (S (S k)) i n Hi) as [H1 H2].
    replace (2 * S i)%nat with (S (S (2 * i))) by lia.
    replace (S (S (2 * i)) + 1)%nat with (S (S (2 * i + 1))) by lia.
    simpl debate_entries. simpl lookup.
    replace (k + S (S (2 * i)))%nat with (S (S k) + 2 * i)%nat by lia.
    replace (k + S (S (2 * i)) + 1)%nat with (S (S k) + 2 * i + 1)%nat by lia.
    done.
Qed.

End Debate.

Lemma py_range_length a b : List.length (py_range a b) = Z.to_nat (b - a).
Proof. unfold py_range. by rewrite length_map, length_seq. Qed.

Lemma py_range_lookup a b (i : nat) :
  (i < Z.to_nat (b - a))%nat -> py_range a b !! i = Some (a + Z.of_nat i).
Proof.
  intros Hi. unfold py_range.
  change (List.map ?f ?l) with (f <$> l).
  rewrite list_lookup_fmap, lookup_seq_lt by done. reflexivity.
Qed.

Lemma length_concat_replicate {A} (n : nat) (l : list A) :
  List.length (concat (replicate n l)) = (n * List.length l)%nat.
Proof.
  induction n as [|n IH]; simpl; [done |]. rewrite length_app, IH. lia.
Qed.

Lemma join_double_newline texts :
  join [10%N; 10%N] texts = double_newline_joined texts.
Proof.
  destruct texts as [|first others]; [done |]. simpl.
  revert first. induction others as [|t others IH]; intros first.
  - by rewrite app_nil_r.
  - simpl. by rewrite (IH t).
Qed.

Lemma str_eqb_decide (a b : pystr) : str_eqb a b = bool_decide (a = b).
Proof.
  destruct (str_eqb a b) eqn:Hab.
  - apply str_eqb_eq in Hab. by rewrite bool_decide_eq_true_2.
  - rewrite bool_decide_eq_false_2; [done |].
    intros Heq%str_eqb_eq. congruence.
Qed.

Section Simulation.

Import Orchestrator.

Variable py_repr : pyval -> pystr.
Variable groq : nat -> request -> completion.
Variable self : DebateOrchestrator.
Variable case_data : case_record.

(** The whole run, call by call, when the three templates fit the
    contexts that the orchestrator builds. *)
Lemma run_simulation_trace (R : Z) (w : world) :
  fits (prompt_template (plaintiff_lawyer self)) round_keys = true ->
  fits (prompt_template (defendant_lawyer self)) round_keys = true ->
  fits (prompt_template (judge self)) judge_keys = true ->
  exists plaintiff_prompt defendant_prompt judge_prompt,
    let entries :=
      debate_entries groq self plaintiff_prompt defendant_prompt
        (List.length (calls w)) (py_range 1 (R + 1)) in
    let judge_ctx :=
      judge_context case_data
        (join [10%N; 10%N] (arguments_of (txt "Plaintiff Lawyer") entries))
        (join [10%N; 10%N] (arguments_of (txt "Defendant Lawyer") entries)) in
    let judge_request := request_for (judge self) judge_prompt in
    run_simulation py_repr groq self case_data R w
    = (Ok {| debate_transcript := entries;
             verdict :=
               verdict_from_text
                 (response_text
                    (groq (List.length (calls w) + 2 * Z.to_nat R) judge_request));
             rounds_completed := R |},
       {| cases := cases w;
          calls :=
            calls w
            ++ concat (replicate (Z.to_nat R)
                         (round_calls self case_data plaintiff_prompt defendant_prompt))
            ++ [ {| caller := agent_type (judge self); given := judge_ctx;
                    sent := judge_request |} ] |}).
Proof.
  intros Hp Hd Hj.
  destruct (fits_format py_repr _ _ _ Hp (round_context_keys case_data))
    as [plaintiff_prompt Hpp].
  destruct (fits_format py_repr _ _ _ Hd (round_context_keys case_data))
    as [defendant_prompt Hdp].
  exists plaintiff_prompt, defendant_prompt.
  set (entries := debate_entries groq self plaintiff_prompt defendant_prompt
                    (List.length (calls w)) (py_range 1 (R + 1))).
  set (pa := join [10%N; 10%N] (arguments_of (txt "Plaintiff Lawyer") entries)).
  set (da := join [10%N; 10%N] (arguments_of (txt "Defendant Lawyer") entries)).
  destruct (fits_format py_repr _ _ _ Hj (judge_context_keys case_data pa da))
    as [judge_prompt Hjp].
  exists judge_prompt. simpl.
  unfold run_simulation, bind.
  rewrite (rounds_loop py_repr groq self case_data _ _ Hpp Hdp). simpl.
  fold entries pa da. fold (judge_context case_data pa da).
  unfold render_verdict, bind.
  rewrite (generate_response_rendered _ _ _ _ _ _ Hjp).
  unfold ret, logged. simpl.
  rewrite length_app, length_concat_replicate, py_range_length.
  replace (R + 1 - 1) with R by lia. simpl.
  rewrite <- app_assoc, Nat.mul_comm. reflexivity.
Qed.

End Simulation.

Section SimulationProperties.

Import Orchestrator.

Variable py_repr : pyval -> pystr.
Variable groq : nat -> request -> completion.
Variable self : DebateOrchestrator.
Variable case_data : case_record.

(** C1.  For every round count [R >= 1] and every behaviour of the model,
    [run_simulation] returns; the transcript has [2 R] entries, round [n]
    holds the positions [2 n - 2] and [2 n - 1], first the plaintiff's entry
    and then the defendant's, both with round number [n], and the argument
    of each entry is the text of its call of the model, content or error
    string; there is one verdict, read from the text of the single call
    that follows the [2 R] turns; and [rounds_completed] is [R].  The
    prompt templates are taken to name only keys of the contexts they are
    rendered with. *)
Theorem run_simulation_transcript_shape (R : Z) (w : world) :
  1 <= R ->
  fits (prompt_template (plaintiff_lawyer self)) round_keys = true ->
  fits (prompt_template (defendant_lawyer self)) round_keys = true ->
  fits (prompt_template (judge self)) judge_keys = true ->
  exists res w' plaintiff_request defendant_request judge_request,
    run_simulation py_repr groq self case_data R w = (Ok res, w')
    /\ Z.of_nat (List.length (debate_transcript res)) = 2 * R
    /\ (forall n, 1 <= n <= R ->
        debate_transcript res !! Z.to_nat (2 * n - 2)
          = Some {| round := n; speaker := txt "Plaintiff Lawyer";
                    argument :=
                      response_text
                        (groq (List.length (calls w) + Z.to_nat (2 * n - 2))
                           plaintiff_request) |}
        /\ debate_transcript res !! Z.to_nat (2 * n - 1)
           = Some {| round := n; speaker := txt "Defendant Lawyer";
                     argument :=
                       response_text
                         (groq (List.length (calls w) + Z.to_nat (2 * n - 1))
                            defendant_request) |})
    /\ verdict res
       = verdict_from_text
           (response_text
              (groq (List.length (calls w) + Z.to_nat (2 * R)) judge_request))
    /\ Z.of_nat (List.length (calls w'))
       = Z.of_nat (List.length (calls w)) + 2 * R + 1
    /\ rounds_completed res = R.
Proof.
  intros HR Hp Hd Hj.
  destruct (run_simulation_trace py_repr groq self case_data R w Hp Hd Hj)
    as [pp [dp [jp Hrun]]].
  cbv zeta in Hrun.
  eexists _, _, (request_for (plaintiff_lawyer self) pp),
    (request_for (defendant_lawyer self) dp), (request_for (judge self) jp).
  split; [exact Hrun |]. cbn [debate_transcript verdict rounds_completed calls].
  split; [| split; [| split; [| split]]].
  - rewrite debate_entries_length, py_range_length. lia.
  - intros n Hn.
    destruct (debate_entries_lookup groq self pp dp (py_range 1 (R + 1))
                (List.length (calls w)) (Z.to_nat (n - 1)) n) as [H1 H2].
    { rewrite py_range_lookup by lia. f_equal. lia. }
    replace (Z.to_nat (2 * n - 2)) with (2 * Z.to_nat (n - 1))%nat by lia.
    replace (Z.to_nat (2 * n - 1)) with (2 * Z.to_nat (n - 1) + 1)%nat by lia.
    rewrite Nat.add_assoc. by split.
  - do 3 f_equal. lia.
  - rewrite !length_app, length_concat_replicate. simpl. lia.
  - reflexivity.
Qed.

(** C9.  The calls of a run are, round after round, one of the plaintiff
    and one of the defendant, both given the same context: the [facts],
    [issues] and [holding] of the case data (the empty text for a field
    that the case lacks) and nothing else; and then one of the judge,
    given these three fields together with [plaintiff_arguments] and
    [defendant_arguments]: the arguments of the entries of that speaker,
    in transcript order, with two newlines between them. *)
Theorem agents_are_given_their_contexts (R : Z) (w : world) :
  fits (prompt_template (plaintiff_lawyer self)) round_keys = true ->
  fits (prompt_template (defendant_lawyer self)) round_keys = true ->
  fits (prompt_template (judge self)) judge_keys = true ->
  exists res w' plaintiff_request defendant_request judge_request,
    run_simulation py_repr groq self case_data R w = (Ok res, w')
    /\ let facts := default (PStr []) (case_data !! "facts") in
       let issues := default (PStr []) (case_data !! "issues") in
       let holding := default (PStr []) (case_data !! "holding") in
       let spoken_by (name : pystr) :=
         List.map argument
           (List.filter (fun t => bool_decide (speaker t = name))
              (debate_transcript res)) in
       calls w'
       = calls w
         ++ concat (replicate (Z.to_nat R)
              [ {| caller := agent_type (plaintiff_lawyer self);
                   given :=
                     {[ "facts" := facts; "issues" := issues;
                        "holding" := holding ]};
                   sent := plaintiff_request |};
                {| caller := agent_type (defendant_lawyer self);
                   given :=
                     {[ "facts" := facts; "issues" := issues;
                        "holding" := holding ]};
                   sent := defendant_request |} ])
         ++ [ {| caller := agent_type (judge self);
                 given :=
                   {[ "facts" := facts; "issues" := issues;
                      "holding" := holding;
                      "plaintiff_arguments" :=
                        PStr (double_newline_joined
                                (spoken_by (txt "Plaintiff Lawyer")));
                      "defendant_arguments" :=
                        PStr (double_newline_joined
                                (spoken_by (txt "Defendant Lawyer"))) ]};
                 sent := judge_request |} ].
Proof.
  intros Hp Hd Hj.
  destruct (run_simulation_trace py_repr groq self case_data R w Hp Hd Hj)
    as [pp [dp [jp Hrun]]].
  cbv zeta in Hrun. eexists _, _, _, _, _. split; [exact Hrun |].
  cbv zeta. cbn [calls debate_transcript].
  unfold round_calls, round_context, judge_context, get_or_empty, arguments_of.
  rewrite !join_double_newline.
  rewrite (List.filter_ext _ (fun t => bool_decide (speaker t = txt "Plaintiff Lawyer"))
             (fun t => str_eqb_decide (speaker t) (txt "Plaintiff Lawyer"))).
  rewrite (List.filter_ext _ (fun t => bool_decide (speaker t = txt "Defendant Lawyer"))
             (fun t => str_eqb_decide (speaker t) (txt "Defendant Lawyer"))).
  reflexivity.
Qed.

End SimulationProperties.

(** Two rounds with the concrete courtroom: four entries, whatever the
    calls did. *)
Lemma run_simulation_transcript_shape_witness :
  exists res w',
    Orchestrator.run_simulation no_repr demo_model (Server.orchestrator demo_prompts)
      processed_case 2 demo_world = (Ok res, w')
    /\ Z.of_nat (List.length (Orchestrator.debate_transcript res)) = 2 * 2
    /\ Orchestrator.rounds_completed res = 2.
Proof.
  destruct (run_simulation_transcript_shape no_repr demo_model
              (Server.orchestrator demo_prompts) processed_case 2 demo_world)
    as [res [w' [rp [rd [rj [Hrun [Hlen [_ [_ [_ Hrounds]]]]]]]]]];
    [lia | reflexivity | reflexivity | reflexivity |].
  by exists res, w'.
Defined.

(** Two rounds with the concrete courtroom, where the plaintiff's calls
    are answered and the defendant's fail: the context of a turn holds
    the three fields of the case, and the judge is given each side's two
    texts with two newlines between them. *)
Lemma agents_are_given_their_contexts_witness :
  exists res w' turn judge_call,
    Orchestrator.run_simulation no_repr demo_model (Server.orchestrator demo_prompts)
      processed_case 2 demo_world = (Ok res, w')
    /\ List.length (calls w') = 5%nat
    /\ calls w' !! 3%nat = Some turn
    /\ given turn
       = {[ "facts" := PStr (txt "Rent was unpaid.");
            "issues" := PStr (txt "Is the lease terminated?");
            "holding" := PStr (txt "The lease stands.") ]}
    /\ calls w' !! 4%nat = Some judge_call
    /\ given judge_call !! "facts" = Some (PStr (txt "Rent was unpaid."))
    /\ given judge_call !! "plaintiff_arguments"
       = Some (PStr (txt "The contract was breached." ++ [10%N; 10%N]
                     ++ txt "The contract was breached."))
    /\ given judge_call !! "defendant_arguments"
       = Some (PStr (txt "Error generating response: Request timed out."
                     ++ [10%N; 10%N]
                     ++ txt "Error generating response: Request timed out.")).
Proof.
  destruct (agents_are_given_their_contexts no_repr demo_model
              (Server.orchestrator demo_prompts) processed_case 2 demo_world)
    as [res [w' [rp [rd [rj [Hrun Hcalls]]]]]];
    [reflexivity | reflexivity | reflexivity |].
  cbv zeta in Hcalls.
  pose proof Hrun as Hres. vm_compute in Hres. injection Hres as <- _.
  remember (calls w') as logged_calls eqn:Hlog. vm_compute in Hcalls.
  eexists _, w', _, _. split; [exact Hrun |]. rewrite <- Hlog, Hcalls.
  repeat split; first [reflexivity | vm_compute; reflexivity].
Defined.

Section ZeroRounds.

Variable py_repr : pyval -> pystr.
Variable groq : nat -> request -> completion.
Variable prompts : pystr -> template.

(** C10.  With [rounds = 0] nothing rejects the request: the orchestrator
    returns an empty transcript and [rounds_completed = 0] after one call,
    of the judge, whose context has empty [plaintiff_arguments] and
    [defendant_arguments]; the verdict is read from the judge's text; and
    the route, when the result can be written to the case file (its
    strings can be encoded in UTF-8), stores and returns it (the response
    model only wants the verdict to be a dict). *)
Theorem zero_rounds_are_accepted (case_id : pystr) (case_data : case_record)
    (w : world) :
  cases w !! case_id = Some case_data ->
  case_data !! "facts" <> None ->
  fits (prompts (txt "judge")) judge_keys = true ->
  exists judge_request,
    let judge_call :=
      {| caller := txt "judge";
         given :=
           {[ "facts" := default (PStr []) (case_data !! "facts");
              "issues" := default (PStr []) (case_data !! "issues");
              "holding" := default (PStr []) (case_data !! "holding");
              "plaintiff_arguments" := PStr [];
              "defendant_arguments" := PStr [] ]};
         sent := judge_request |} in
    let result :=
      {| Orchestrator.debate_transcript := [];
         Orchestrator.verdict :=
           verdict_from_text
             (response_text (groq (List.length (calls w)) judge_request));
         Orchestrator.rounds_completed := 0 |} in
    Orchestrator.run_simulation py_repr groq (Server.orchestrator prompts)
      case_data 0 w
    = (Ok result, {| cases := cases w; calls := calls w ++ [judge_call] |})
    /\ (storable (Server.py_of_simulation result) = true ->
        Server.run_simulation py_repr groq prompts case_id 0 w
        = (if is_dict (Orchestrator.verdict result)
           then Ok {| Server.sim_case_id := case_id;
                      Server.sim_debate_transcript := [];
                      Server.sim_verdict := Orchestrator.verdict result;
                      Server.sim_rounds_completed := 0 |}
           else Raise (HTTPException 500
                         (DetailWith (txt "Error running simulation: ")
                            ValidationError)),
           {| cases :=
                <[case_id :=
                    {[ "simulation" := Server.py_of_simulation result ]} ∪ case_data]>
                  (cases w);
              calls := calls w ++ [judge_call] |})).
Proof.
  intros Hcase Hfacts Hj.
  destruct (fits_format py_repr _ _ _ Hj (judge_context_keys case_data [] []))
    as [judge_prompt Hjp].
  exists (request_for (Orchestrator.judge (Server.orchestrator prompts)) judge_prompt).
  simpl.
  match goal with |- ?run = ?res /\ _ => assert (run = res) as Horch end.
  { unfold Orchestrator.run_simulation, bind.
    change (py_range 1 (0 + 1)) with (@nil Z). simpl.
    unfold render_verdict, bind.
    fold (judge_context case_data [] []).
    rewrite (generate_response_rendered py_repr groq
               (Orchestrator.judge (Server.orchestrator prompts))
               (judge_context case_data [] []) judge_prompt _ Hjp).
    reflexivity. }
  split; [exact Horch |]. intros _.
  unfold Server.run_simulation, try_except, bind, Server.load_case.
  rewrite Hcase. destruct (case_data !! "facts") as [facts |]; [| done].
  unfold ret at 1. rewrite Horch.
  unfold Server.update_case, bind, Server.load_case. simpl.
  rewrite Hcase. unfold Server.validate_dict.
  destruct (is_dict _); reflexivity.
Qed.

End ZeroRounds.

(** Zero rounds on the processed case of the concrete courtroom: the route
    answers with an empty transcript. *)
Lemma zero_rounds_are_accepted_witness :
  exists response w',
    Server.run_simulation no_repr demo_model demo_prompts (txt "processed") 0
      demo_world = (Ok response, w')
    /\ Server.sim_debate_transcript response = []
    /\ Server.sim_rounds_completed response = 0
    /\ List.length (calls w') = 1%nat.
Proof.
  destruct (zero_rounds_are_accepted no_repr demo_model demo_prompts
              (txt "processed") processed_case demo_world)
    as [judge_request [_ Hroute]];
    [vm_compute; reflexivity | vm_compute; discriminate | reflexivity |].
  rewrite Hroute by (vm_compute; reflexivity).
  eexists _, _. split; [reflexivity |]. by repeat split.
Defined.

(** ** The routes and their failures *)

Section Routes.

Variable py_repr : pyval -> pystr.
Variable groq : nat -> request -> completion.
Variable prompts : pystr -> template.

Lemma unknown_case_is_not_found (case_id : pystr) (rounds : Z) (w : world) :
  cases w !! case_id = None ->
  Server.run_simulation py_repr groq prompts case_id rounds w
    = (Raise (HTTPException 404 (Detail (txt "Case not found"))), w)
  /\ Server.audit_case py_repr groq prompts case_id w
     = (Raise (HTTPException 404 (Detail (txt "Case not found"))), w).
Proof.
  intros Hnone.
  unfold Server.run_simulation, Server.audit_case, try_except, bind,
    Server.load_case.
  by rewrite Hnone.
Qed.

(** C8 on the code.  Simulating a stored case without [facts], or auditing
    one without [simulation], stops before any call of the model and
    leaves the store as it was, but the [HTTPException] with status 400
    that the route raises is caught by its own [except Exception] and
    raised again with status 500, the status of every processing
    failure. *)
Theorem precondition_failure_is_answered_500 (case_id : pystr) (rounds : Z)
    (case_data : case_record) (w : world) :
  cases w !! case_id = Some case_data ->
  (case_data !! "facts" = None ->
   Server.run_simulation py_repr groq prompts case_id rounds w
   = (Raise (HTTPException 500
               (DetailWith (txt "Error running simulation: ")
                  (HTTPException 400
                     (Detail (txt "Case must be processed before simulation"))))),
      w))
  /\ (case_data !! "simulation" = None ->
      Server.audit_case py_repr groq prompts case_id w
      = (Raise (HTTPException 500
                  (DetailWith (txt "Error auditing case: ")
                     (HTTPException 400
                        (Detail (txt "Simulation must be run before audit"))))),
         w)).
Proof.
  intros Hcase. split; intros Hmissing.
  - unfold Server.run_simulation, try_except, bind, Server.load_case.
    by rewrite Hcase, Hmissing.
  - unfold Server.audit_case, try_except, bind, Server.load_case.
    by rewrite Hcase, Hmissing.
Qed.

End Routes.

(** The three failures side by side in the concrete courtroom: the
    precondition failures of both routes and a template mismatch all have
    status 500, an unknown case has status 404. *)
Lemma precondition_failure_is_answered_500_witness :
  status_of (Server.run_simulation no_repr demo_model demo_prompts
               (txt "uploaded") 2 demo_world) = Some 500
  /\ status_of (Server.audit_case no_repr demo_model demo_prompts
                  (txt "uploaded") demo_world) = Some 500
  /\ status_of (Server.run_simulation no_repr demo_model mismatched_prompts
                  (txt "processed") 2 demo_world) = Some 500
  /\ status_of (Server.run_simulation no_repr demo_model demo_prompts
                  (txt "unknown") 2 demo_world) = Some 404.
Proof.
  destruct (precondition_failure_is_answered_500 no_repr demo_model demo_prompts
              (txt "uploaded") 2 uploaded_case demo_world)
    as [Hsim Haudit]; [vm_compute; reflexivity |].
  split; [by rewrite Hsim by (vm_compute; reflexivity) |].
  split; [by rewrite Haudit by (vm_compute; reflexivity) |].
  split; vm_compute; reflexivity.
Defined.

(** ** Further properties of structured result extraction *)

Lemma parse_members_gives_dict fuel : forall s acc v rest,
  Json.parse_members fuel s acc = Some (v, rest) -> is_dict v = true.
Proof.
  induction fuel as [|fuel IH]; intros s acc v rest H; [done |].
  cbn [Json.parse_members] in H.
  destruct s as [|c s]; [done |].
  destruct (N.eqb c PyStr.quote); [| done].
  destruct (Json.scanstring s) as [[key r1] |]; [| done].
  destruct (Json.skip_ws r1) as [|c2 r2]; [done |].
  destruct (c2 =? 58)%N; [| done].
  destruct (Json.scan_once fuel (Json.skip_ws r2)) as [[val r3] |]; [| done].
  destruct (Json.skip_ws r3) as [|c4 r4]; [done |].
  destruct (c4 =? 125)%N; [by injection H as <- _ |].
  destruct (c4 =? 44)%N; [| done]. by eapply IH.
Qed.

Lemma loads_of_brace_is_dict r v :
  Json.loads (Regex.lbrace :: r) = Some v -> is_dict v = true.
Proof.
  unfold Json.loads.
  change (startswith [65279%N] (Regex.lbrace :: r)) with false.
  change (Json.skip_ws (Regex.lbrace :: r)) with (Regex.lbrace :: r).
  cbn [Json.scan_once].
  change (N.eqb Regex.lbrace PyStr.quote) with false.
  change (N.eqb Regex.lbrace 123%N) with true. cbv iota.
  destruct (Json.skip_ws r) as [|c1 r1]; [done |].
  destruct (c1 =? 125)%N.
  - destruct (Json.skip_ws r1); [by intros [= <-] | done].
  - destruct (Json.parse_members _ _ _) as [[v0 rest] |] eqn:Hm; [| done].
    apply parse_members_gives_dict in Hm.
    destruct (Json.skip_ws rest); [by intros [= <-] | done].
Qed.

Lemma search_starts_with_brace s m :
  Regex.search s = Some m -> exists r, m = Regex.lbrace :: r.
Proof.
  induction s as [|c s IH]; simpl; [done |].
  destruct (c =? Regex.lbrace)%N eqn:Hc.
  - destruct (Regex.brace_body false s) as [body |]; simpl.
    + intros [= <-]. apply N.eqb_eq in Hc. subst. by eexists.
    + exact IH.
  - exact IH.
Qed.

(** Whenever the text holds a balanced-brace candidate, the structured
    result, if the [try] block yields one, is a dict, and so is the
    verdict: a list or a string can only come back from a text without
    any such candidate. *)
Theorem brace_candidate_gives_a_dict (raw : pystr) :
  Regex.search raw <> None ->
  is_dict (verdict_from_text raw) = true
  /\ forall keys v, try_structured keys raw = Some v -> is_dict v = true.
Proof.
  intros Hsearch.
  assert (forall keys v, try_structured keys raw = Some v -> is_dict v = true)
    as Hdict.
  { intros keys v. unfold try_structured, parse_json_from_response.
    destruct (Regex.search raw) as [m |] eqn:Hm; [| done].
    destruct (search_starts_with_brace _ _ Hm) as [r ->].
    destruct (Json.loads (Regex.lbrace :: r)) as [v0 |] eqn:Hl; [| done].
    destruct (has_keys keys v0); [| done]. intros [= <-].
    by eapply loads_of_brace_is_dict. }
  split; [| exact Hdict].
  unfold verdict_from_text.
  destruct (try_structured _ raw) as [v |] eqn:Ht; [by eapply Hdict | done].
Qed.

(** A text with an embedded object that lacks the keys: the verdict is
    the fallback dict. *)
Lemma brace_candidate_gives_a_dict_witness :
  is_dict (verdict_from_text (dq "The ruling: {'outcome': 'settled'}")) = true.
Proof.
  apply (brace_candidate_gives_a_dict (dq "The ruling: {'outcome': 'settled'}")).
  vm_compute. discriminate.
Defined.

(** ** Further properties of the fallback bias scan *)

Lemma bias_report_fields text :
  field "fairness_score" (_simple_bias_detection text)
    = Some (PInt (fairness_of (fst (scan_biases (lower text)))))
  /\ field "biased_terms" (_simple_bias_detection text)
     = Some (PList (List.map PStr (firstn 10 (fst (scan_biases (lower text))))))
  /\ field "bias_types" (_simple_bias_detection text)
     = Some (PList (List.map PStr (snd (scan_biases (lower text))))).
Proof.
  unfold _simple_bias_detection.
  destruct (scan_biases (lower text)) as [found_biases bias_types].
  by repeat split.
Qed.

(** The report of the fallback scan, for every text: the score lies
    between 50 and 100 and is 100 less a multiple of 5; the listed terms
    are the first ten matched keywords at most, without repetition, each a
    keyword of the lexicon that occurs in the lower-cased text. *)
Theorem bias_report_is_bounded (text : pystr) :
  exists score terms,
    field "fairness_score" (_simple_bias_detection text) = Some (PInt score)
    /\ 50 <= score <= 100
    /\ (exists k, 0 <= k /\ score = 100 - 5 * k)
    /\ field "biased_terms" (_simple_bias_detection text)
       = Some (PList (List.map PStr terms))
    /\ List.length terms = Nat.min 10 (size (matched_keywords text))
    /\ NoDup terms
    /\ forall keyword, In keyword terms ->
         In keyword lexicon /\ occurs keyword (lower text).
Proof.
  destruct (bias_report_fields text) as [Hscore [Hterms _]].
  destruct (scan_biases_found (lower text)) as [Hnd Hin].
  set (found := fst (scan_biases (lower text))) in *.
  exists (fairness_of found), (firstn 10 found).
  split; [exact Hscore |]. unfold fairness_of, py_len.
  split; [lia |].
  split.
  { destruct (Z.le_gt_cases (Z.of_nat (List.length found)) 10) as [Hle | Hgt].
    - exists (Z.of_nat (List.length found)). lia.
    - exists 10. lia. }
  split; [exact Hterms |].
  split; [by rewrite length_firstn, <- found_biases_count |].
  split.
  - rewrite <- (firstn_skipn 10 found) in Hnd. by apply NoDup_app in Hnd as [? _].
  - intros keyword Hk.
    assert (In keyword found) as Hf.
    { rewrite <- (firstn_skipn 10 found). apply in_or_app. by left. }
    apply Hin in Hf as [Hl Hc]. split; [done | by apply contains_spec].
Qed.

Section CategoryScan.

Variable text_lower : pystr.

Lemma scan_keyword_types bias_type st keyword :
  NoDup (snd st) ->
  NoDup (snd (scan_keyword text_lower bias_type st keyword))
  /\ forall t, In t (snd (scan_keyword text_lower bias_type st keyword))
       <-> In t (snd st) \/ (t = bias_type /\ contains keyword text_lower = true).
Proof.
  destruct st as [found types]; simpl. intros Hnd.
  destruct (contains keyword text_lower) eqn:Hc; simpl.
  - destruct (str_mem bias_type types) eqn:Hm; simpl.
    + apply str_mem_In in Hm. split; [done |].
      intros t; split; [by left | intros [H | [-> _]]; done].
    + assert (~ In bias_type types) as Hnot.
      { intros H%str_mem_In. congruence. }
      split.
      * apply NoDup_app. repeat split; [done | | apply NoDup_singleton].
        intros x Hx ->%list_elem_of_singleton. by apply Hnot, list_elem_of_In.
      * intros t. rewrite in_app_iff. simpl. split.
        -- intros [H | [<- | []]]; [by left | by right].
        -- intros [H | [-> _]]; [by left | right; by left].
  - split; [done |]. intros t; split; [by left | intros [H | [_ H]]; congruence].
Qed.

Lemma scan_keywords_types bias_type keywords : forall st,
  NoDup (snd st) ->
  NoDup (snd (fold_left (scan_keyword text_lower bias_type) keywords st))
  /\ forall t, In t (snd (fold_left (scan_keyword text_lower bias_type) keywords st))
       <-> In t (snd st)
           \/ (t = bias_type
               /\ exists keyword, In keyword keywords
                    /\ contains keyword text_lower = true).
Proof.
  induction keywords as [|k ks IH]; intros st Hnd; simpl.
  - split; [done |]. intros t; split; [by left | intros [H | [_ [k [[] _]]]]; done].
  - destruct (scan_keyword_types bias_type st k Hnd) as [Hnd' Hin'].
    destruct (IH _ Hnd') as [Hnd'' Hin'']. split; [done |].
    intros t. rewrite Hin'', Hin'. split.
    + intros [[H | [-> H]] | [-> [k' [H1 H2]]]]; [by left | right | right];
        (split; [done |]); eauto.
    + intros [H | [-> [k' [[<- | H1] H2]]]];
        [left; by left | left; right; by split | right; split; eauto].
Qed.

Lemma scan_categories_types categories : forall st,
  NoDup (snd st) ->
  let st' :=
    fold_left
      (fun st '(bias_type, keywords) =>
         fold_left (scan_keyword text_lower bias_type) keywords st)
      categories st in
  NoDup (snd st')
  /\ forall t, In t (snd st')
       <-> In t (snd st)
           \/ exists keywords keyword,
                In (t, keywords) categories /\ In keyword keywords
                /\ contains keyword text_lower = true.
Proof.
  induction categories as [|[bias_type keywords] cs IH]; intros st Hnd; simpl.
  - split; [done |]. intros t; split; [by left | intros [H | [? [? [[] _]]]]; done].
  - destruct (scan_keywords_types bias_type keywords st Hnd) as [Hnd' Hin'].
    destruct (IH _ Hnd') as [Hnd'' Hin'']. split; [done |].
    intros t. rewrite Hin'', Hin'. split.
    + intros [[H | [-> [k [H1 H2]]]] | [kws [k [H1 [H2 H3]]]]].
      * by left.
      * right. exists keywords, k. auto.
      * right. exists kws, k. auto.
    + intros [H | [kws [k [[[= <- <-] | H1] [H2 H3]]]]].
      * left. by left.
      * left. right. split; eauto.
      * right. eauto.
Qed.

End CategoryScan.

(** The categories of the report, for every text: a category is listed,
    once, exactly when one of its own keywords occurs in the lower-cased
    text. *)
Theorem bias_types_are_the_matched_categories (text : pystr) :
  exists types,
    field "bias_types" (_simple_bias_detection text)
      = Some (PList (List.map PStr types))
    /\ NoDup types
    /\ forall t, In t types
         <-> exists keywords keyword,
               In (t, keywords) bias_keywords /\ In keyword keywords
               /\ occurs keyword (lower text).
Proof.
  destruct (bias_report_fields text) as [_ [_ Htypes]].
  destruct (scan_categories_types (lower text) bias_keywords ([], []))
    as [Hnd Hin]; [apply NoDup_nil_2 |].
  exists (snd (scan_biases (lower text))).
  split; [exact Htypes |]. split; [exact Hnd |].
  intros t. unfold scan_biases. rewrite Hin. simpl. split.
  - intros [[] | [kws [k [H1 [H2 H3]]]]]. exists kws, k.
    by rewrite <- contains_spec.
  - intros [kws [k [H1 [H2 H3]]]]. right. exists kws, k.
    by rewrite contains_spec.
Qed.

(** ** Further properties of agent invocation *)

Lemma search_without_brace s :
  Forall (fun c => c <> Regex.lbrace) s -> Regex.search s = None.
Proof.
  induction 1 as [|c s Hc _ IH]; [done |]. simpl.
  apply N.eqb_neq in Hc. by rewrite Hc.
Qed.

Lemma error_text_is_not_json message :
  Json.loads (txt "Error generating response: " ++ message) = None.
Proof. reflexivity. Qed.

Lemma error_text_has_no_plaintiff message :
  contains (txt "plaintiff") (lower (txt "Error generating response: " ++ message))
  = contains (txt "plaintiff") (lower message).
Proof. unfold lower. rewrite List.map_app. reflexivity. Qed.

(** A judge whose model call fails decides for the defendant: when the
    message of the exception has no opening brace and no 'plaintiff' in
    any case, the verdict made from the error text is the fallback with
    [FAVOR_DEFENDANT] and confidence 75, and its reasoning is the
    beginning of the error text. *)
Theorem failed_judge_call_favors_defendant (message : pystr) :
  Forall (fun c => c <> Regex.lbrace) message ->
  ~ occurs_ignoring_case (txt "plaintiff") message ->
  verdict_from_text (response_text (Failure message))
  = PDict [ (txt "verdict", PStr (txt "FAVOR_DEFENDANT"));
            (txt "confidence", PInt 75);
            (txt "reasoning",
             PList [PStr (firstn 200 (txt "Error generating response: " ++ message))]);
            (txt "supporting_evidence",
             PList [PStr (txt "Evidence from case facts")]) ].
Proof.
  intros Hbrace Hplaintiff.
  change (response_text (Failure message))
    with (txt "Error generating response: " ++ message).
  unfold verdict_from_text, try_structured, parse_json_from_response.
  rewrite search_without_brace.
  - rewrite error_text_is_not_json. unfold fallback_verdict, prefix_slice.
    rewrite error_text_has_no_plaintiff.
    destruct (contains (txt "plaintiff") (lower message)) eqn:Hc; [| done].
    by apply contains_lower_spec in Hc.
  - apply Forall_app. split; [| done].
    vm_compute. repeat constructor; discriminate.
Qed.

(** The verdict when the judge's call times out. *)
Lemma failed_judge_call_favors_defendant_witness :
  field "verdict" (verdict_from_text (response_text (Failure (txt "Request timed out."))))
  = Some (PStr (txt "FAVOR_DEFENDANT")).
Proof.
  rewrite (failed_judge_call_favors_defendant (txt "Request timed out.")).
  - reflexivity.
  - vm_compute. repeat constructor; discriminate.
  - intros Ho%contains_lower_spec. vm_compute in Ho. discriminate.
Defined.

Section InvocationEffects.

Variable py_repr : pyval -> pystr.
Variable groq : nat -> request -> completion.

(** What [generate_response] does to the world: it never touches the case
    store; when it raises, no request was sent; when it returns, exactly
    one request was sent, for this agent and this context. *)
Theorem generate_response_sends_one_request (self : agent) (ctx : context)
    (w : world) :
  cases (snd (generate_response py_repr groq self ctx w)) = cases w
  /\ (forall e, fst (generate_response py_repr groq self ctx w) = Raise e ->
      snd (generate_response py_repr groq self ctx w) = w)
  /\ (forall text, fst (generate_response py_repr groq self ctx w) = Ok text ->
      exists req,
        calls (snd (generate_response py_repr groq self ctx w))
        = calls w ++ [ {| caller := agent_type self; given := ctx; sent := req |} ]
        /\ text = response_text (groq (List.length (calls w)) req)).
Proof.
  destruct (format py_repr (prompt_template self) ctx) as [prompt | e0] eqn:Hf.
  - rewrite (generate_response_rendered _ _ _ _ _ _ Hf). simpl.
    split; [done |]. split; [done |].
    intros text [= <-]. by eexists.
  - rewrite (generate_response_mismatch _ _ _ _ _ _ Hf). simpl.
    split; [done |]. split; done.
Qed.

End InvocationEffects.

(** ** Further properties of the debate orchestrator *)

Lemma fits_false t keys :
  fits t keys = false ->
  exists name, In name (placeholders t) /\ ~ In name keys.
Proof.
  unfold fits. induction (placeholders t) as [|n ns IH]; simpl; [done |].
  destruct (existsb (String.eqb n) keys) eqn:Hn; simpl.
  - intros H. destruct (IH H) as [name [Hin Hnot]]. exists name. auto.
  - intros _. exists n. split; [by left |]. intros Hin.
    assert (existsb (String.eqb n) keys = true) as Ht; [| congruence].
    apply existsb_exists. exists n. split; [done | apply String.eqb_refl].
Qed.

Lemma round_context_other case_data name :
  ~ In name round_keys -> round_context case_data !! name = None.
Proof.
  unfold round_keys, round_context. simpl. intros Hnot.
  assert (name <> "facts" /\ name <> "issues" /\ name <> "holding")
    as [H1 [H2 H3]] by (repeat split; intros ->; apply Hnot; auto).
  by simplify_map_eq.
Qed.

Lemma judge_context_other case_data pa da name :
  ~ In name judge_keys -> judge_context case_data pa da !! name = None.
Proof.
  unfold judge_keys, judge_context. simpl. intros Hnot.
  assert (name <> "facts" /\ name <> "issues" /\ name <> "holding"
          /\ name <> "plaintiff_arguments" /\ name <> "defendant_arguments")
    as [H1 [H2 [H3 [H4 H5]]]]
    by (repeat split; intros ->; apply Hnot; auto 10).
  by simplify_map_eq.
Qed.

Lemma py_range_empty a b : b <= a -> py_range a b = [].
Proof.
  intros H. unfold py_range. by replace (Z.to_nat (b - a)) with 0%nat by lia.
Qed.

Lemma py_range_cons a b : a < b -> py_range a b = a :: py_range (a + 1) b.
Proof.
  intros H. unfold py_range.
  replace (Z.to_nat (b - a)) with (S (Z.to_nat (b - (a + 1)))) by lia.
  simpl. f_equal; [lia |].
  rewrite <- seq_shift, List.map_map. apply List.map_ext. intros i. lia.
Qed.

Section Mismatch.

Import Orchestrator.

Variable py_repr : pyval -> pystr.
Variable groq : nat -> request -> completion.

Lemma generate_response_unfit self keys (ctx : context) w :
  fits (prompt_template self) keys = false ->
  (forall name, ~ In name keys -> ctx !! name = None) ->
  exists key, generate_response py_repr groq self ctx w = (Raise (KeyError key), w).
Proof.
  intros Hfits Hother.
  destruct (fits_false _ _ Hfits) as [name [Hin Hnot]].
  destruct (format py_repr (prompt_template self) ctx) as [prompt | e] eqn:Hf.
  - destruct (format_returns _ _ _ _ Hf name Hin). by apply Hother.
  - destruct (format_raises _ _ _ _ Hf) as [n [-> _]].
    exists (txt n). by apply generate_response_mismatch.
Qed.

Variable self : DebateOrchestrator.
Variable case_data : case_record.

Lemma run_simulation_unfold (R : Z) :
  run_simulation py_repr groq self case_data R
  = (let* debate_transcript :=
       for_each (py_range 1 (R + 1))
         (debate_round py_repr groq self
            (get_or_empty case_data "facts") (get_or_empty case_data "issues")
            (get_or_empty case_data "holding")) [] in
     judging py_repr groq self case_data debate_transcript R).
Proof. reflexivity. Qed.

Lemma judging_runs debate_transcript (R : Z) w :
  fits (prompt_template (judge self)) judge_keys = true ->
  exists judge_prompt,
    judging py_repr groq self case_data debate_transcript R w
    = (Ok {| debate_transcript := debate_transcript;
             verdict :=
               verdict_from_text
                 (response_text
                    (groq (List.length (calls w))
                       (request_for (judge self) judge_prompt)));
             rounds_completed := R |},
       logged (judge self)
         (judge_context case_data
            (join [10%N; 10%N] (arguments_of (txt "Plaintiff Lawyer") debate_transcript))
            (join [10%N; 10%N] (arguments_of (txt "Defendant Lawyer") debate_transcript)))
         (request_for (judge self) judge_prompt) w).
Proof.
  intros Hj.
  set (pa := join [10%N; 10%N] (arguments_of (txt "Plaintiff Lawyer") debate_transcript)).
  set (da := join [10%N; 10%N] (arguments_of (txt "Defendant Lawyer") debate_transcript)).
  destruct (fits_format py_repr _ _ (judge_context case_data pa da) Hj
              (judge_context_keys case_data pa da)) as [judge_prompt Hjp].
  exists judge_prompt. unfold judging, bind, render_verdict, bind.
  fold pa da.
  by rewrite (generate_response_rendered _ _ _ _ _ _ Hjp).
Qed.

Lemma judging_raises debate_transcript (R : Z) w :
  fits (prompt_template (judge self)) judge_keys = false ->
  exists key,
    judging py_repr groq self case_data debate_transcript R w
    = (Raise (KeyError key), w).
Proof.
  intros Hj.
  set (pa := join [10%N; 10%N] (arguments_of (txt "Plaintiff Lawyer") debate_transcript)).
  set (da := join [10%N; 10%N] (arguments_of (txt "Defendant Lawyer") debate_transcript)).
  destruct (generate_response_unfit (judge self) judge_keys
              (judge_context case_data pa da) w Hj
              (judge_context_other case_data pa da)) as [key Hkey].
  exists key. unfold judging, bind, render_verdict, bind. fold pa da.
  by rewrite Hkey.
Qed.

(** The first round fails at a lawyer's template. *)
Lemma first_round_raises (rounds : list Z) n w :
  fits (prompt_template (plaintiff_lawyer self)) round_keys = false
  \/ fits (prompt_template (defendant_lawyer self)) round_keys = false ->
  exists key w',
    for_each (n :: rounds)
      (debate_round py_repr groq self
         (get_or_empty case_data "facts") (get_or_empty case_data "issues")
         (get_or_empty case_data "holding")) [] w
    = (Raise (KeyError key), w')
    /\ cases w' = cases w.
Proof.
  intros Hbad. simpl. unfold bind at 1. unfold debate_round.
  fold (round_context case_data). unfold bind at 1.
  destruct (fits (prompt_template (plaintiff_lawyer self)) round_keys) eqn:Hp.
  - destruct Hbad as [Hbad | Hd]; [done |].
    destruct (fits_format py_repr _ _ _ Hp (round_context_keys case_data))
      as [pp Hpp].
    rewrite (generate_response_rendered _ _ _ _ _ _ Hpp).
    unfold bind at 1.
    destruct (generate_response_unfit (defendant_lawyer self) round_keys
                (round_context case_data)
                (logged (plaintiff_lawyer self) (round_context case_data)
                   (request_for (plaintiff_lawyer self) pp) w)
                Hd (round_context_other case_data)) as [key Hkey].
    rewrite Hkey. by eexists _, _.
  - destruct (generate_response_unfit (plaintiff_lawyer self) round_keys
                (round_context case_data) w Hp (round_context_other case_data))
      as [key Hkey].
    rewrite Hkey. by eexists _, _.
Qed.

(** The two outcomes of [run_simulation]. *)
Lemma run_simulation_outcome (R : Z) (w : world) :
  (exists res w',
     run_simulation py_repr groq self case_data R w = (Ok res, w')
     /\ cases w' = cases w
     /\ (R <= 0
         \/ (fits (prompt_template (plaintiff_lawyer self)) round_keys = true
             /\ fits (prompt_template (defendant_lawyer self)) round_keys = true))
     /\ fits (prompt_template (judge self)) judge_keys = true)
  \/ (exists key w',
        run_simulation py_repr groq self case_data R w = (Raise (KeyError key), w')
        /\ cases w' = cases w
        /\ ((1 <= R
             /\ (fits (prompt_template (plaintiff_lawyer self)) round_keys = false
                 \/ fits (prompt_template (defendant_lawyer self)) round_keys = false))
            \/ fits (prompt_template (judge self)) judge_keys = false)).
Proof.
  rewrite run_simulation_unfold. unfold bind at 1 2.
  destruct (Z.le_gt_cases R 0) as [HR | HR].
  - rewrite py_range_empty by lia. simpl for_each. unfold ret at 1 2.
    destruct (fits (prompt_template (judge self)) judge_keys) eqn:Hj.
    + destruct (judging_runs [] R w Hj) as [jp Hrun]. rewrite Hrun.
      left. eexists _, _. split; [reflexivity |]. split; [done |]. split; [by left | done].
    + destruct (judging_raises [] R w Hj) as [key Hrun]. rewrite Hrun.
      right. eexists _, _. split; [reflexivity |]. split; [done |]. by right.
  - rewrite (py_range_cons 1 (R + 1)) by lia.
    destruct (fits (prompt_template (plaintiff_lawyer self)) round_keys) eqn:Hp;
      [destruct (fits (prompt_template (defendant_lawyer self)) round_keys) eqn:Hd |].
    + destruct (fits_format py_repr _ _ _ Hp (round_context_keys case_data))
        as [pp Hpp].
      destruct (fits_format py_repr _ _ _ Hd (round_context_keys case_data))
        as [dp Hdp].
      rewrite (rounds_loop py_repr groq self case_data _ _ Hpp Hdp).
      destruct (fits (prompt_template (judge self)) judge_keys) eqn:Hj.
      * destruct (judging_runs
                    ([] ++ debate_entries groq self pp dp (List.length (calls w))
                             (1 :: py_range (1 + 1) (R + 1))) R
                    {| cases := cases w;
                       calls := calls w
                                ++ concat (replicate
                                             (List.length (1 :: py_range (1 + 1) (R + 1)))
                                             (round_calls self case_data pp dp)) |} Hj)
          as [jp Hrun].
        rewrite Hrun. left. eexists _, _. split; [reflexivity |]. split; [done |]. split; [by right | done].
      * destruct (judging_raises
                    ([] ++ debate_entries groq self pp dp (List.length (calls w))
                             (1 :: py_range (1 + 1) (R + 1))) R
                    {| cases := cases w;
                       calls := calls w
                                ++ concat (replicate
                                             (List.length (1 :: py_range (1 + 1) (R + 1)))
                                             (round_calls self case_data pp dp)) |} Hj)
          as [key Hrun].
        rewrite Hrun. right. eexists _, _. split; [reflexivity |]. split; [done |]. by right.
    + destruct (first_round_raises (py_range (1 + 1) (R + 1)) 1 w (or_intror Hd))
        as [key [w' [Hrun Hcases]]].
      rewrite Hrun. right. exists key, w'.
      split; [done |]. split; [done |]. left. split; [lia | by right].
    + destruct (first_round_raises (py_range (1 + 1) (R + 1)) 1 w (or_introl Hp))
        as [key [w' [Hrun Hcases]]].
      rewrite Hrun. right. exists key, w'.
      split; [done |]. split; [done |]. left. split; [lia | by left].
Qed.

(** [run_simulation] raises exactly when a template that it renders names
    a field that its context lacks: the judge's template with any round
    count, a lawyer's template when there is a round to play.  What it
    raises is the [KeyError] of [str.format], and the case store is left
    as it was. *)
Theorem run_simulation_raises_iff_a_template_is_unfit (R : Z) (w : world) :
  ((exists e, fst (run_simulation py_repr groq self case_data R w) = Raise e)
   <-> (1 <= R
        /\ (fits (prompt_template (plaintiff_lawyer self)) round_keys = false
            \/ fits (prompt_template (defendant_lawyer self)) round_keys = false))
       \/ fits (prompt_template (judge self)) judge_keys = false)
  /\ (forall e, fst (run_simulation py_repr groq self case_data R w) = Raise e ->
      exists key, e = KeyError key)
  /\ cases (snd (run_simulation py_repr groq self case_data R w)) = cases w.
Proof.
  destruct (run_simulation_outcome R w)
    as [[res [w' [Hrun [Hst [Hl Hj]]]]] | [key [w' [Hrun [Hst Hbad]]]]];
    rewrite Hrun; simpl.
  - split; [| split; [intros e He; discriminate He | done]].
    split; [intros [e He]; discriminate He |].
    intros [[HR [Hf | Hf]] | Hf]; [| | congruence];
      (destruct Hl as [Hl | [Hp Hd]]; [lia | congruence]).
  - split; [| split; [intros e [= <-]; by eexists | done]].
    split; [done | intros _; by eexists].
Qed.

(** When only the judge's template is unfit, the error comes after the
    debate: all [2 R] requests of the rounds were sent before
    [run_simulation] raises, and their texts are lost. *)
Theorem unfit_judge_template_fails_after_the_debate (R : Z) (w : world) :
  fits (prompt_template (plaintiff_lawyer self)) round_keys = true ->
  fits (prompt_template (defendant_lawyer self)) round_keys = true ->
  fits (prompt_template (judge self)) judge_keys = false ->
  exists key w',
    run_simulation py_repr groq self case_data R w = (Raise (KeyError key), w')
    /\ cases w' = cases w
    /\ List.length (calls w') = (List.length (calls w) + 2 * Z.to_nat R)%nat.
Proof.
  intros Hp Hd Hj.
  destruct (fits_format py_repr _ _ _ Hp (round_context_keys case_data))
    as [pp Hpp].
  destruct (fits_format py_repr _ _ _ Hd (round_context_keys case_data))
    as [dp Hdp].
  rewrite run_simulation_unfold. unfold bind at 1.
  rewrite (rounds_loop py_repr groq self case_data _ _ Hpp Hdp).
  destruct (judging_raises
              ([] ++ debate_entries groq self pp dp (List.length (calls w))
                       (py_range 1 (R + 1))) R
              {| cases := cases w;
                 calls := calls w
                          ++ concat (replicate (List.length (py_range 1 (R + 1)))
                                       (round_calls self case_data pp dp)) |} Hj)
    as [key Hrun].
  rewrite Hrun. eexists _, _. split; [reflexivity |]. simpl.
  split; [done |].
  rewrite length_app, length_concat_replicate, py_range_length. simpl. lia.
Qed.

End Mismatch.

Section NoRound.

Import Orchestrator.

Variable py_repr : pyval -> pystr.
Variable groq : nat -> request -> completion.
Variable self : DebateOrchestrator.
Variable case_data : case_record.

(** A round count of zero or less plays no round: the lawyers are never
    called, the judge is called once with empty argument texts, and
    [rounds_completed] repeats the number that was given, negative or
    not. *)
Theorem nonpositive_rounds_play_no_round (R : Z) (w : world) :
  R <= 0 ->
  fits (prompt_template (judge self)) judge_keys = true ->
  exists judge_request,
    run_simulation py_repr groq self case_data R w
    = (Ok {| debate_transcript := [];
             verdict :=
               verdict_from_text
                 (response_text (groq (List.length (calls w)) judge_request));
             rounds_completed := R |},
       {| cases := cases w;
          calls :=
            calls w
            ++ [ {| caller := agent_type (judge self);
                    given := judge_context case_data [] [];
                    sent := judge_request |} ] |}).
Proof.
  intros HR Hj. rewrite run_simulation_unfold. unfold bind at 1.
  rewrite py_range_empty by lia. simpl for_each. unfold ret at 1.
  destruct (judging_runs py_repr groq self case_data [] R w Hj) as [jp Hrun].
  rewrite Hrun. by eexists.
Qed.

End NoRound.

(** Minus three rounds in the concrete courtroom. *)
Lemma nonpositive_rounds_play_no_round_witness :
  exists res w',
    Orchestrator.run_simulation no_repr demo_model (Server.orchestrator demo_prompts)
      processed_case (-3) demo_world = (Ok res, w')
    /\ Orchestrator.debate_transcript res = []
    /\ Orchestrator.rounds_completed res = -3
    /\ List.length (calls w') = 1%nat.
Proof.
  destruct (nonpositive_rounds_play_no_round no_repr demo_model
              (Server.orchestrator demo_prompts) processed_case (-3) demo_world)
    as [judge_request Hrun]; [lia | reflexivity |].
  rewrite Hrun. by eexists _, _.
Defined.

(** Two rounds with an unfit judge template: four requests, no result. *)
Lemma unfit_judge_template_fails_after_the_debate_witness :
  exists key w',
    Orchestrator.run_simulation no_repr demo_model
      (Server.orchestrator unfit_judge_prompts) processed_case 2 demo_world
    = (Raise (KeyError key), w')
    /\ List.length (calls w') = 4%nat.
Proof.
  destruct (unfit_judge_template_fails_after_the_debate no_repr demo_model
              (Server.orchestrator unfit_judge_prompts) processed_case 2 demo_world)
    as [key [w' [Hrun [_ Hcalls]]]]; [reflexivity | reflexivity | reflexivity |].
  by exists key, w'.
Defined.

(** ** Further properties of the case store and of the routes *)



Section RouteFailures.

Variable py_repr : pyval -> pystr.
Variable groq : nat -> request -> completion.




Variable prompts : pystr -> template.


End RouteFailures.

Section StoredResults.

Variable py_repr : pyval -> pystr.
Variable groq : nat -> request -> completion.
Variable prompts : pystr -> template.

(** The simulate route writes the result to the store before it builds
    its response: whenever the orchestrator returns a result that can be
    written to the file, the case holds the
    result under [simulation] (its other keys as before) and the verdict
    can be read back from it, whether the route then answers with the
    response or, for a verdict that is not a dict, with status 500. *)
Theorem simulation_is_stored_before_the_response_is_built (case_id : pystr)
    (rounds : Z) (case_data : case_record) (w w1 : world)
    (res : Orchestrator.simulation_result) :
  cases w !! case_id = Some case_data ->
  case_data !! "facts" <> None ->
  Orchestrator.run_simulation py_repr groq (Server.orchestrator prompts)
    case_data rounds w = (Ok res, w1) ->
  storable (Server.py_of_simulation res) = true ->
  let stored := {[ "simulation" := Server.py_of_simulation res ]} ∪ case_data in
  Server.run_simulation py_repr groq prompts case_id rounds w
  = (if is_dict (Orchestrator.verdict res)
     then Ok {| Server.sim_case_id := case_id;
                Server.sim_debate_transcript :=
                  List.map Server.py_of_entry (Orchestrator.debate_transcript res);
                Server.sim_verdict := Orchestrator.verdict res;
                Server.sim_rounds_completed := Orchestrator.rounds_completed res |}
     else Raise (HTTPException 500
                   (DetailWith (txt "Error running simulation: ") ValidationError)),
     {| cases := <[case_id := stored]> (cases w); calls := calls w1 |})
  /\ stored !! "simulation" = Some (Server.py_of_simulation res)
  /\ (forall key, key <> "simulation" -> stored !! key = case_data !! key)
  /\ Server.py_getitem (Server.py_of_simulation res) (txt "verdict")
     = Ok (Orchestrator.verdict res).
Proof.
  intros Hcase Hfacts Hrun _ stored.
  assert (cases w1 = cases w) as Hst.
  { destruct (run_simulation_outcome py_repr groq (Server.orchestrator prompts)
                case_data rounds w)
      as [[res' [w' [Hrun' [Hst' _]]]] | [key [w' [Hrun' _]]]];
      rewrite Hrun in Hrun'; [| discriminate Hrun'].
    by injection Hrun' as _ ->. }
  split; [| split; [| split]].
  - unfold Server.run_simulation, try_except, bind, Server.load_case.
    rewrite Hcase.
    destruct (case_data !! "facts") as [facts |]; [| done].
    unfold ret at 1. rewrite Hrun.
    unfold Server.update_case, bind, Server.load_case.
    rewrite Hst, Hcase. unfold Server.validate_dict.
    destruct (is_dict (Orchestrator.verdict res)); simpl; by rewrite Hst.
  - unfold stored. by simplify_map_eq.
  - intros key Hkey. unfold stored. rewrite lookup_union.
    rewrite lookup_singleton_ne by done. by destruct (case_data !! key).
  - reflexivity.
Qed.

(** The audit route on a stored verdict that is not a dict: [verdict.get]
    raises [AttributeError], the route answers status 500, the auditor is
    never called and nothing is written. *)
Theorem audit_of_a_stored_non_dict_verdict_is_answered_500 (case_id : pystr)
    (case_data : case_record) (simulation verdict : pyval) (w : world) :
  cases w !! case_id = Some case_data ->
  case_data !! "simulation" = Some simulation ->
  Server.py_getitem simulation (txt "verdict") = Ok verdict ->
  is_dict verdict = false ->
  Server.audit_case py_repr groq prompts case_id w
  = (Raise (HTTPException 500
              (DetailWith (txt "Error auditing case: ") AttributeError)), w).
Proof.
  intros Hcase Hsim Hverdict Hdict.
  unfold Server.audit_case, try_except, bind, Server.load_case.
  rewrite Hcase, Hsim. unfold ret at 1, lift. rewrite Hverdict.
  unfold Auditor.audit, bind, lift.
  by destruct verdict.
Qed.

End StoredResults.

(** One round whose judge answers with a JSON array: the route answers
    500, and the case holds the simulation all the same. *)
Lemma simulation_is_stored_before_the_response_is_built_witness :
  exists w2 stored,
    Server.run_simulation no_repr (always (dq "['verdict', 'confidence']"))
      demo_prompts (txt "processed") 1 demo_world
    = (Raise (HTTPException 500
                (DetailWith (txt "Error running simulation: ") ValidationError)), w2)
    /\ cases w2 !! txt "processed" = Some stored
    /\ stored !! "simulation" <> None.
Proof.
  edestruct (simulation_is_stored_before_the_response_is_built no_repr
               (always (dq "['verdict', 'confidence']")) demo_prompts
               (txt "processed") 1 processed_case demo_world)
    as [Hroute [Hstored _]];
    [vm_compute; reflexivity | vm_compute; discriminate | vm_compute; reflexivity
    | vm_compute; reflexivity |].
  rewrite Hroute. eexists _, _.
  split; [reflexivity |]. simpl. split; [by rewrite lookup_insert_eq |].
  rewrite Hstored. discriminate.
Defined.

(** The audit of the case whose stored verdict is a list. *)
Lemma audit_of_a_stored_non_dict_verdict_is_answered_500_witness :
  status_of (Server.audit_case no_repr demo_model demo_prompts (txt "listed")
               list_verdict_world) = Some 500
  /\ calls (snd (Server.audit_case no_repr demo_model demo_prompts (txt "listed")
                   list_verdict_world)) = [].
Proof.
  rewrite (audit_of_a_stored_non_dict_verdict_is_answered_500 no_repr demo_model
             demo_prompts (txt "listed") list_verdict_case
             (PDict [ (txt "debate_transcript", PList []);
                      (txt "verdict", PList [PStr (txt "verdict"); PStr (txt "confidence")]);
                      (txt "rounds_completed", PInt 0) ])
             (PList [PStr (txt "verdict"); PStr (txt "confidence")])
             list_verdict_world);
    [by split | vm_compute; reflexivity | vm_compute; reflexivity
    | reflexivity | reflexivity].
Defined.

(** ** Further properties of the bias auditor *)

Lemma audit_context_keys facts verdict_text reasoning name :
  In name audit_keys -> audit_context facts verdict_text reasoning !! name <> None.
Proof.
  unfold audit_keys, audit_context. simpl.
  intros [<- | [<- | [<- | []]]]; by simplify_map_eq.
Qed.

Lemma py_join_strings sep parts :
  Auditor.py_join sep (PList (List.map PStr parts)) = Ok (join sep parts).
Proof.
  unfold Auditor.py_join.
  assert (fold_right
            (fun x acc =>
               match x, acc with
               | PStr s, Some ss => Some (s :: ss)
               | _, _ => None
               end) (Some []) (List.map PStr parts) = Some parts) as ->; [| done].
  induction parts as [|p parts IH]; simpl; [done | by rewrite IH].
Qed.

Section AuditContext.

Variable py_repr : pyval -> pystr.
Variable groq : nat -> request -> completion.

(** What [BiasAuditor.audit] hands to the auditor for a verdict dict whose
    reasoning is a list of strings (or is absent): one request, made for
    the context of the case facts, the verdict and the reasoning items
    joined by single spaces; the result is the object of the answer when
    it has a [fairness_score], and otherwise the bias scan of these three
    texts joined by spaces. *)
Theorem audit_hands_over_the_joined_reasoning (self : agent)
    (case_data : case_record) (d : list (pystr * pyval)) (parts : list pystr)
    (w : world) :
  fits (prompt_template self) audit_keys = true ->
  default (PList []) (PyDict.get (txt "reasoning") d) = PList (List.map PStr parts) ->
  let facts := get_or_empty case_data "facts" in
  let verdict_text := default (PStr []) (PyDict.get (txt "verdict") d) in
  let reasoning := join (txt " ") parts in
  exists req,
    Auditor.audit py_repr groq self case_data (PDict d) w
    = (Ok match
            try_structured [txt "fairness_score"]
              (response_text (groq (List.length (calls w)) req))
          with
          | Some audit_result => audit_result
          | None =>
              _simple_bias_detection
                (py_str py_repr facts ++ txt " " ++ py_str py_repr verdict_text
                 ++ txt " " ++ reasoning)
          end,
       {| cases := cases w;
          calls :=
            calls w
            ++ [ {| caller := agent_type self;
                    given := audit_context facts verdict_text reasoning;
                    sent := req |} ] |}).
Proof.
  intros Hfits Hreasoning facts verdict_text reasoning.
  destruct (fits_format py_repr _ _ (audit_context facts verdict_text reasoning)
              Hfits (audit_context_keys facts verdict_text reasoning))
    as [prompt Hprompt].
  exists (request_for self prompt).
  unfold Auditor.audit, bind at 1 2 3, lift. simpl Auditor.py_get.
  rewrite Hreasoning, py_join_strings.
  match goal with
  | |- _ = ?outcome =>
      change (audit_case py_repr groq self
                (audit_context facts verdict_text reasoning) w = outcome)
  end.
  unfold audit_case, bind.
  rewrite (generate_response_rendered py_repr groq _ _ _ _ Hprompt).
  unfold get_or_empty at 1 2 3, audit_context. simplify_map_eq.
  by destruct (try_structured _ _).
Qed.

End AuditContext.

(** The audit of a fallback verdict by an auditor without a prompt file:
    the reasoning handed over is the single item of the verdict. *)
Lemma audit_hands_over_the_joined_reasoning_witness :
  exists audit_result call,
    Auditor.audit no_repr demo_model (bare_agent "auditor") processed_case
      (fallback_verdict scenario_unstructured) empty_world
    = (Ok audit_result, {| cases := ∅; calls := [call] |})
    /\ given call !! "reasoning" = Some (PStr scenario_unstructured).
Proof.
  edestruct (audit_hands_over_the_joined_reasoning no_repr demo_model
               (bare_agent "auditor") processed_case
               [ (txt "verdict", PStr (txt "FAVOR_DEFENDANT"));
                 (txt "confidence", PInt 75);
                 (txt "reasoning", PList [PStr (prefix_slice 200 scenario_unstructured)]);
                 (txt "supporting_evidence",
                  PList [PStr (txt "Evidence from case facts")]) ]
               [prefix_slice 200 scenario_unstructured] empty_world)
    as [req Haudit]; [reflexivity | reflexivity |].
  eexists _, _. split; [exact Haudit |]. reflexivity.
Defined.

(** ** Properties of the text cleaning *)

Lemma lstrip_head s c rest : lstrip s = c :: rest -> isspace c = false.
Proof.
  induction s as [|x s IH]; simpl; [done |].
  destruct (isspace x) eqn:Hx; [exact IH | by intros [= <- _]].
Qed.

Lemma lstrip_split s :
  exists spaces, s = spaces ++ lstrip s /\ Forall (fun c => isspace c = true) spaces.
Proof.
  induction s as [|x s [spaces [Hs Hall]]]; simpl.
  - by exists [].
  - destruct (isspace x) eqn:Hx.
    + exists (x :: spaces). split; [simpl; congruence | by constructor].
    + by exists [].
Qed.

Lemma strip_split s :
  exists front back, s = front ++ strip s ++ back.
Proof.
  destruct (lstrip_split s) as [front [Hs _]].
  destruct (lstrip_split (rev (lstrip s))) as [back [Hr _]].
  exists front, (rev back). unfold strip.
  rewrite <- rev_app_distr, <- Hr, rev_involutive. exact Hs.
Qed.

Lemma strip_ends s :
  (forall c rest, strip s = c :: rest -> isspace c = false)
  /\ (forall front c, strip s = front ++ [c] -> isspace c = false).
Proof.
  split.
  - intros c rest Hc.
    destruct (lstrip_split (rev (lstrip s))) as [back [Hr _]].
    apply (f_equal (@rev N)) in Hr. rewrite rev_involutive, rev_app_distr in Hr.
    fold (strip s) in Hr. rewrite Hc in Hr. simpl in Hr.
    by eapply lstrip_head.
  - intros front c Hc. apply (f_equal (@rev N)) in Hc.
    unfold strip in Hc. rewrite rev_involutive, rev_app_distr in Hc. simpl in Hc.
    by eapply lstrip_head.
Qed.

Lemma strip_fixed s :
  (forall c rest, s = c :: rest -> isspace c = false) ->
  (forall front c, s = front ++ [c] -> isspace c = false) ->
  strip s = s.
Proof.
  intros Hhead Hlast.
  assert (forall t, (forall c rest, t = c :: rest -> isspace c = false) ->
                    lstrip t = t) as Hfix.
  { intros [|c t] Ht; simpl; [done |]. by rewrite (Ht c t). }
  unfold strip. rewrite (Hfix s Hhead), Hfix; [apply rev_involutive |].
  intros c rest Hc. apply (Hlast (rev rest) c).
  apply (f_equal (@rev N)) in Hc. rewrite rev_involutive in Hc. by rewrite Hc.
Qed.

Lemma sub_whitespace_spaces in_run text :
  Forall (fun c => c = 32%N \/ isspace c = false)
    (DataLoader.sub_whitespace in_run text).
Proof.
  revert in_run. induction text as [|c text IH]; intros in_run; simpl; [done |].
  destruct (isspace c) eqn:Hc.
  - destruct in_run; [apply IH | constructor; [by left | apply IH]].
  - constructor; [by right | apply IH].
Qed.

Lemma sub_whitespace_length in_run text :
  (List.length (DataLoader.sub_whitespace in_run text) <= List.length text)%nat.
Proof.
  revert in_run. induction text as [|c text IH]; intros in_run; simpl; [done |].
  destruct (isspace c).
  - destruct in_run; simpl; [specialize (IH true) | specialize (IH true)]; lia.
  - simpl. specialize (IH false). lia.
Qed.

Lemma sub_whitespace_plain in_run text :
  Forall (fun c => isspace c = false) text ->
  DataLoader.sub_whitespace in_run text = text.
Proof.
  intros Hall. revert in_run.
  induction Hall as [|c text Hc _ IH]; intros in_run; simpl; [done |].
  by rewrite Hc, IH.
Qed.

Lemma sub_whitespace_app in_run a c rest :
  Forall (fun c => isspace c = false) a ->
  isspace c = false ->
  DataLoader.sub_whitespace in_run (a ++ c :: rest)
  = a ++ c :: DataLoader.sub_whitespace false rest.
Proof.
  intros Hall Hc. revert in_run.
  induction Hall as [|x a Hx _ IH]; intros in_run; simpl.
  - by rewrite Hc.
  - by rewrite Hx, IH.
Qed.

Section CleanText.

Variable isalnum : N -> bool.

Lemma kept_In c :
  DataLoader.kept isalnum c = true ->
  DataLoader.is_word isalnum c = true \/ isspace c = true \/ In c DataLoader.punctuation.
Proof.
  unfold DataLoader.kept. intros [[H | H]%orb_true_iff | H]%orb_true_iff; auto.
  right; right. apply existsb_exists in H as [x [Hin ->%N.eqb_eq]]. exact Hin.
Qed.

(** What [clean_text] returns, for every text: each character is the
    space U+0020 or a character that is not whitespace and is a word
    character or one of the eleven punctuation marks; the first and the
    last character are not whitespace; and the result is no longer than
    the text. *)
Theorem clean_text_keeps_the_allowed_characters (text : pystr) :
  Forall (fun c => c = 32%N
                   \/ (isspace c = false
                       /\ (DataLoader.is_word isalnum c = true \/ In c DataLoader.punctuation)))
    (DataLoader.clean_text isalnum text)
  /\ (forall c rest, DataLoader.clean_text isalnum text = c :: rest -> isspace c = false)
  /\ (forall front c, DataLoader.clean_text isalnum text = front ++ [c] -> isspace c = false)
  /\ (List.length (DataLoader.clean_text isalnum text) <= List.length text)%nat.
Proof.
  unfold DataLoader.clean_text.
  set (collapsed := DataLoader.sub_whitespace false text).
  set (filtered := List.filter (DataLoader.kept isalnum) collapsed).
  destruct (strip_split filtered) as [front [back Hsplit]].
  destruct (strip_ends filtered) as [Hhead Hlast].
  split; [| split; [exact Hhead | split; [exact Hlast |]]].
  - assert (Forall (fun c => c = 32%N
                             \/ (isspace c = false
                                 /\ (DataLoader.is_word isalnum c = true \/ In c DataLoader.punctuation)))
              filtered) as Hall.
    { apply List.Forall_forall. intros c [Hin Hkept]%filter_In.
      pose proof (sub_whitespace_spaces false text) as Hsp.
      rewrite List.Forall_forall in Hsp.
      destruct (Hsp c Hin) as [-> | Hc]; [by left | right].
      split; [done |].
      destruct (kept_In c Hkept) as [H | [H | H]]; [by left | congruence | by right]. }
    rewrite Hsplit in Hall.
    apply Forall_app in Hall as [_ Hall]. by apply Forall_app in Hall as [Hall _].
  - assert (List.length filtered <= List.length collapsed)%nat as H1
      by apply List.filter_length_le.
    pose proof (sub_whitespace_length false text) as H2.
    apply (f_equal (@List.length N)) in Hsplit.
    rewrite !length_app in Hsplit. fold collapsed in H2. lia.
Qed.

(** The whitespace is collapsed before the other characters are removed:
    a removed character that stood between two spaces leaves both of them,
    so the result can hold a run of spaces, and cleaning it once more
    gives another text. *)
Theorem removed_character_leaves_two_spaces (a b : pystr) (c : N) :
  a <> [] -> b <> [] ->
  Forall (fun x => DataLoader.is_word isalnum x = true /\ isspace x = false) a ->
  Forall (fun x => DataLoader.is_word isalnum x = true /\ isspace x = false) b ->
  DataLoader.kept isalnum c = false ->
  DataLoader.clean_text isalnum (a ++ [32%N] ++ [c] ++ [32%N] ++ b) = a ++ [32%N; 32%N] ++ b
  /\ DataLoader.clean_text isalnum (a ++ [32%N; 32%N] ++ b) = a ++ [32%N] ++ b.
Proof.
  intros Ha Hb Hwa Hwb Hc.
  assert (isspace c = false) as Hcs.
  { unfold DataLoader.kept in Hc.
    destruct (isspace c); [| done]. by rewrite orb_true_r in Hc. }
  assert (forall s, Forall (fun x => DataLoader.is_word isalnum x = true /\ isspace x = false) s ->
                    Forall (fun x => isspace x = false) s) as Hplain.
  { intros s Hs. eapply Forall_impl; [exact Hs | by intros x [_ Hx]]. }
  assert (forall s, Forall (fun x => DataLoader.is_word isalnum x = true /\ isspace x = false) s ->
                    List.filter (DataLoader.kept isalnum) s = s) as Hfilter.
  { intros s Hs. induction Hs as [|x s [Hx _] _ IH]; simpl; [done |].
    unfold DataLoader.kept at 1. by rewrite Hx, IH. }
  assert (forall m, strip (a ++ m ++ b) = a ++ m ++ b) as Hstrip.
  { intros m. apply strip_fixed.
    - intros x rest Hx. destruct a as [|y a]; [done |].
      injection Hx as <- _. apply Forall_cons in Hwa as [[_ Hy] _]. exact Hy.
    - intros front x Hx.
      destruct (exists_last Hb) as [b' [y ->]].
      rewrite !app_assoc in Hx. apply app_inj_tail in Hx as [_ <-].
      apply Forall_app in Hwb as [_ Hy].
      apply Forall_cons in Hy as [[_ Hy] _]. exact Hy. }
  assert (forall s, Forall (fun x => isspace x = false) s -> s <> [] ->
            forall in_run rest,
              DataLoader.sub_whitespace in_run (s ++ rest)
              = s ++ DataLoader.sub_whitespace false rest) as Hprefix.
  { intros s Hs. induction Hs as [|x s Hx Hs IH]; intros Hne in_run rest; [done |].
    simpl. rewrite Hx. f_equal.
    destruct s as [|y s]; [done |]. by apply IH. }
  assert (DataLoader.kept isalnum 32%N = true) as Hsp.
  { unfold DataLoader.kept. change (isspace 32%N) with true.
    by rewrite orb_true_r. }
  assert (DataLoader.sub_whitespace true b = b) as Hsub
    by (apply sub_whitespace_plain, Hplain, Hwb).
  unfold DataLoader.clean_text. split.
  - rewrite (Hprefix a (Hplain a Hwa) Ha). simpl. rewrite Hcs. simpl. rewrite Hsub.
    rewrite List.filter_app, (Hfilter a Hwa). simpl.
    rewrite Hc, (Hfilter b Hwb).
    rewrite Hsp.
    exact (Hstrip [32%N; 32%N]).
  - rewrite (Hprefix a (Hplain a Hwa) Ha). simpl. rewrite Hsub.
    rewrite List.filter_app, (Hfilter a Hwa). simpl.
    rewrite (Hfilter b Hwb).
    rewrite Hsp.
    exact (Hstrip [32%N]).
Qed.

End CleanText.
